(** * node-raw-http-socket: HTTP / WebSocket / SSE over one raw TCP listener

    A shallow embedding of [src/index.ts] and the properties of its protocol
    classifier, HTTP responder, WebSocket handshake and frame codec, and SSE
    formatter.

    Conventions of the embedding:
    - a JavaScript string is the list of its UTF-16 code units ([jsstring]);
    - a [Buffer] is the list of its bytes, each a [Z] in [0, 256);
    - [undefined] is [None]; a value that may be undefined is an [option];
    - a socket is known by its identity, and the calls the program makes on
      sockets ([write], [end]) are recorded in order in the [World];
    - an exception thrown by the runtime is a [Throw] completion. *)

From Stdlib Require Import ZArith Lia List String Ascii DecimalString.
From stdpp Require Import base numbers option list.

Local Open Scope Z_scope.

(** ** JavaScript strings *)

Module Js.

Abbreviation jsstring := (list Z) (only parsing).

(** The code units of an ASCII source literal. *)
Definition lit (s : string) : jsstring :=
  map (fun a => Z.of_nat (nat_of_ascii a)) (list_ascii_of_string s).

Definition CR : Z := 13.
Definition LF : Z := 10.
(** ['\r\n'] and ['\n'] *)
Definition CRLF : jsstring := [CR; LF].
Definition NL : jsstring := [LF].

(** [s.startsWith(pat)] *)
Fixpoint startsWith (s pat : jsstring) {struct pat} : bool :=
  match pat, s with
  | [], _ => true
  | p :: pat', c :: s' => if decide (p = c) then startsWith s' pat' else false
  | _ :: _, [] => false
  end.

(** [s.includes(pat)] *)
Fixpoint includes (s pat : jsstring) : bool :=
  startsWith s pat ||
  match s with
  | [] => false
  | _ :: s' => includes s' pat
  end.

(** [s.split(sep)] for a non-empty separator: the pieces between the
    occurrences of [sep], found from left to right without overlap.
    [skip] counts the code units of a matched separator still to be passed
    over; [cur] is the current piece, reversed. *)
Fixpoint split_go (sep : jsstring) (skip : nat) (cur : jsstring) (s : jsstring)
  : list jsstring :=
  match s with
  | [] => [rev cur]
  | c :: s' =>
      match skip with
      | S k => split_go sep k cur s'
      | O =>
          if startsWith s sep
          then rev cur :: split_go sep (Nat.pred (length sep)) [] s'
          else split_go sep O (c :: cur) s'
      end
  end.

Definition split (s sep : jsstring) : list jsstring := split_go sep O [] s.

(** [parts.join(sep)] *)
Fixpoint join (parts : list jsstring) (sep : jsstring) : jsstring :=
  match parts with
  | [] => []
  | [p] => p
  | p :: rest => p ++ sep ++ join rest sep
  end.

(** [`${n}`] for an integer number [n]. *)
Definition Number_toString (n : Z) : jsstring :=
  lit (NilZero.string_of_int (Z.to_int n)).

(** Truthiness of a value of type [string | undefined]. *)
Definition truthy (v : option jsstring) : bool :=
  match v with
  | Some (_ :: _) => true
  | _ => false
  end.

(** [x & m] where [x] may be undefined (ToInt32 of undefined is 0). *)
Definition band (x : option Z) (m : Z) : Z := Z.land (default 0 x) m.

(** The value of a number after a round trip through IEEE-754 binary64,
    for a non-negative integer: 53 significant bits, ties to even. *)
Definition to_double (v : Z) : Z :=
  let n := Z.log2 v in
  if n <? 53 then v
  else
    let e := n - 52 in
    let q := Z.shiftr v e in
    let r := Z.land v (Z.ones e) in
    let half := Z.shiftl 1 (e - 1) in
    let q' := if (half <? r) || ((r =? half) && Z.odd q) then q + 1 else q in
    Z.shiftl q' e.

(** [Number(b)] for a non-negative BigInt, and [a + b] on non-negative
    integer numbers. *)
Definition Number_of_BigInt (b : Z) : Z := to_double b.
Definition add (a b : Z) : Z := to_double (a + b).

(** Completion of a call: normal, or an exception. *)
Inductive Error := RangeError | TypeError.
Inductive Completion (A : Type) :=
| Normal (a : A)
| Throw (e : Error).
Arguments Normal {A} a.
Arguments Throw {A} e.

End Js.
Import Js.

(** ** Buffers and text encodings (Node's [Buffer]) *)

Module Buffer.

Abbreviation Buffer := (list Z) (only parsing).

(** A value stored into a [Uint8Array] element. *)
Definition uint8 (x : Z) : Z := x mod 256.

Definition length (b : Buffer) : Z := Z.of_nat (List.length b).

(** [b.slice(start, end)] for non-negative integer arguments: both ends are
    clamped to the length of the buffer. *)
Definition slice (b : Buffer) (start end_ : Z) : Buffer :=
  let s := Z.min start (length b) in
  let e := Z.min end_ (length b) in
  let newLength := if s <? e then e - s else 0 in
  take (Z.to_nat newLength) (drop (Z.to_nat s) b).

(** Big-endian value of a run of bytes. *)
Definition be_value (bs : list Z) : Z :=
  fold_left (fun acc b => acc * 256 + b) bs 0.

(** [b.readUInt16BE(offset)]: throws when the two bytes are not there. *)
Definition readUInt16BE (b : Buffer) (offset : Z) : Completion Z :=
  match b !! Z.to_nat offset, b !! Z.to_nat (offset + 1) with
  | Some first, Some last => Normal (first * 256 + last)
  | _, _ => Throw RangeError
  end.

(** [b.readBigUInt64BE(offset)]: throws when the eight bytes are not there. *)
Definition readBigUInt64BE (b : Buffer) (offset : Z) : Completion Z :=
  match b !! Z.to_nat offset, b !! Z.to_nat (offset + 7) with
  | Some _, Some _ => Normal (be_value (take 8 (drop (Z.to_nat offset) b)))
  | _, _ => Throw RangeError
  end.

(** UTF-16 code units of a Unicode code point. *)
Definition utf16_of_code_point (cp : Z) : jsstring :=
  if cp <? 0x10000 then [cp]
  else
    let v := cp - 0x10000 in
    [0xD800 + Z.shiftr v 10; 0xDC00 + Z.land v 0x3FF].

(** UTF-8 bytes of a Unicode scalar value. *)
Definition utf8_of_code_point (cp : Z) : Buffer :=
  if cp <? 0x80 then [cp]
  else if cp <? 0x800 then
    [Z.lor 0xC0 (Z.shiftr cp 6); Z.lor 0x80 (Z.land cp 0x3F)]
  else if cp <? 0x10000 then
    [Z.lor 0xE0 (Z.shiftr cp 12);
     Z.lor 0x80 (Z.land (Z.shiftr cp 6) 0x3F);
     Z.lor 0x80 (Z.land cp 0x3F)]
  else
    [Z.lor 0xF0 (Z.shiftr cp 18);
     Z.lor 0x80 (Z.land (Z.shiftr cp 12) 0x3F);
     Z.lor 0x80 (Z.land (Z.shiftr cp 6) 0x3F);
     Z.lor 0x80 (Z.land cp 0x3F)].

Definition is_high_surrogate (u : Z) : bool := (0xD800 <=? u) && (u <=? 0xDBFF).
Definition is_low_surrogate (u : Z) : bool := (0xDC00 <=? u) && (u <=? 0xDFFF).

(** [Buffer.from(s, 'utf-8')]: surrogate pairs are combined, a lone surrogate
    is encoded as U+FFFD.  [hi] is a pending high surrogate. *)
Fixpoint utf8_encode_go (hi : option Z) (s : jsstring) : Buffer :=
  match s with
  | [] =>
      match hi with
      | Some _ => utf8_of_code_point 0xFFFD
      | None => []
      end
  | u :: s' =>
      match hi with
      | Some h =>
          if is_low_surrogate u then
            utf8_of_code_point (0x10000 + (h - 0xD800) * 0x400 + (u - 0xDC00))
              ++ utf8_encode_go None s'
          else if is_high_surrogate u then
            utf8_of_code_point 0xFFFD ++ utf8_encode_go (Some u) s'
          else
            utf8_of_code_point 0xFFFD ++ utf8_of_code_point u
              ++ utf8_encode_go None s'
      | None =>
          if is_high_surrogate u then utf8_encode_go (Some u) s'
          else if is_low_surrogate u then
            utf8_of_code_point 0xFFFD ++ utf8_encode_go None s'
          else utf8_of_code_point u ++ utf8_encode_go None s'
      end
  end.

Definition from_utf8 (s : jsstring) : Buffer := utf8_encode_go None s.

(** [Buffer.from(s, 'binary')] (latin1): the low byte of each code unit. *)
Definition from_binary (s : jsstring) : Buffer := map (fun u => Z.land u 0xFF) s.

(** State of the UTF-8 decoder inside a multi-byte sequence: the code point
    so far, the continuation bytes still needed, and the range allowed for
    the next byte. *)
Record DecoderState := {
  code_point : Z;
  bytes_needed : nat;
  lower_boundary : Z;
  upper_boundary : Z;
}.

(** A byte read by the decoder outside any sequence: what is emitted, and
    the sequence it opens, if any. *)
Definition decode_lead (byte : Z) : jsstring * option DecoderState :=
  if byte <=? 0x7F then ([byte], None)
  else if (0xC2 <=? byte) && (byte <=? 0xDF) then
    ([], Some {| code_point := Z.land byte 0x1F; bytes_needed := 1;
                 lower_boundary := 0x80; upper_boundary := 0xBF |})
  else if (0xE0 <=? byte) && (byte <=? 0xEF) then
    ([], Some {| code_point := Z.land byte 0xF; bytes_needed := 2;
                 lower_boundary := if byte =? 0xE0 then 0xA0 else 0x80;
                 upper_boundary := if byte =? 0xED then 0x9F else 0xBF |})
  else if (0xF0 <=? byte) && (byte <=? 0xF4) then
    ([], Some {| code_point := Z.land byte 0x7; bytes_needed := 3;
                 lower_boundary := if byte =? 0xF0 then 0x90 else 0x80;
                 upper_boundary := if byte =? 0xF4 then 0x8F else 0xBF |})
  else ([0xFFFD], None).

(** [b.toString('utf-8')]: every maximal ill-formed run of bytes is decoded
    as one U+FFFD. *)
Fixpoint utf8_decode_go (st : option DecoderState) (b : Buffer) : jsstring :=
  match b with
  | [] =>
      match st with
      | Some _ => [0xFFFD]
      | None => []
      end
  | byte :: b' =>
      match st with
      | None =>
          let '(out, st') := decode_lead byte in
          out ++ utf8_decode_go st' b'
      | Some d =>
          if (lower_boundary d <=? byte) && (byte <=? upper_boundary d) then
            let cp := Z.lor (Z.shiftl (code_point d) 6) (Z.land byte 0x3F) in
            match bytes_needed d with
            | S (S k) =>
                utf8_decode_go
                  (Some {| code_point := cp; bytes_needed := S k;
                           lower_boundary := 0x80; upper_boundary := 0xBF |}) b'
            | _ => utf16_of_code_point cp ++ utf8_decode_go None b'
            end
          else
            let '(out, st') := decode_lead byte in
            [0xFFFD] ++ out ++ utf8_decode_go st' b'
      end
  end.

Definition toString (b : Buffer) : jsstring := utf8_decode_go None b.

End Buffer.

(** ** Node's [crypto]: SHA-1 (FIPS 180-4) and the base64 digest encoding *)

Module Crypto.

Definition word (x : Z) : Z := x mod 2 ^ 32.

Definition rotl (n : Z) (x : Z) : Z :=
  word (Z.lor (Z.shiftl x n) (Z.shiftr x (32 - n))).

Definition lnot32 (x : Z) : Z := Z.lxor x 0xFFFFFFFF.

(** The [n] low bytes of [v], most significant first. *)
Fixpoint be_bytes (n : nat) (v : Z) : list Z :=
  match n with
  | O => []
  | S k => Z.land (Z.shiftr v (8 * Z.of_nat k)) 0xFF :: be_bytes k v
  end.

(** Message padding: a 1 bit, zeros up to 56 mod 64 bytes, then the length
    of the message in bits on 64 bits. *)
Definition pad (msg : list Z) : list Z :=
  let l := Z.of_nat (List.length msg) in
  let zeros := Z.to_nat ((55 - l) mod 64) in
  msg ++ [0x80] ++ repeat 0 zeros ++ be_bytes 8 (8 * l).

(** The 32-bit big-endian words of a run of bytes. *)
Fixpoint words_of (fuel : nat) (bs : list Z) : list Z :=
  match fuel, bs with
  | S k, b0 :: b1 :: b2 :: b3 :: rest =>
      (((b0 * 256 + b1) * 256 + b2) * 256 + b3) :: words_of k rest
  | _, _ => []
  end.

(** The message schedule, most recent word first: [w] holds W(t-1) .. W(0)
    and is extended by [n] words. *)
Fixpoint schedule (n : nat) (w : list Z) : list Z :=
  match n with
  | O => w
  | S k =>
      let x i := default 0 (w !! i) in
      schedule k (rotl 1 (Z.lxor (Z.lxor (x 2%nat) (x 7%nat))
                                 (Z.lxor (x 13%nat) (x 15%nat))) :: w)
  end.

Definition f (t : nat) (b c d : Z) : Z :=
  if (t <? 20)%nat then Z.lor (Z.land b c) (Z.land (lnot32 b) d)
  else if (t <? 40)%nat then Z.lxor (Z.lxor b c) d
  else if (t <? 60)%nat then
    Z.lor (Z.lor (Z.land b c) (Z.land b d)) (Z.land c d)
  else Z.lxor (Z.lxor b c) d.

Definition K (t : nat) : Z :=
  if (t <? 20)%nat then 0x5A827999
  else if (t <? 40)%nat then 0x6ED9EBA1
  else if (t <? 60)%nat then 0x8F1BBCDC
  else 0xCA62C1D6.

Definition Hash := (Z * Z * Z * Z * Z)%type.

Definition round (st : Hash) (tw : nat * Z) : Hash :=
  let '(a, b, c, d, e) := st in
  let '(t, w) := tw in
  (word (rotl 5 a + f t b c d + e + K t + w), a, rotl 30 b, c, d).

Definition compress (h : Hash) (block : list Z) : Hash :=
  let w := rev (schedule 64 (rev (words_of 16 block))) in
  let '(a, b, c, d, e) := fold_left round (imap (fun t x => (t, x)) w) h in
  let '(h0, h1, h2, h3, h4) := h in
  (word (h0 + a), word (h1 + b), word (h2 + c), word (h3 + d), word (h4 + e)).

Fixpoint blocks (fuel : nat) (bs : list Z) : list (list Z) :=
  match fuel, bs with
  | S k, _ :: _ => take 64 bs :: blocks k (drop 64 bs)
  | _, _ => []
  end.

Definition H0 : Hash :=
  (0x67452301, 0xEFCDAB89, 0x98BADCFE, 0x10325476, 0xC3D2E1F0).

(** [createHash('sha1').update(msg).digest()]: the 20 bytes of the digest. *)
Definition sha1 (msg : list Z) : list Z :=
  let p := pad msg in
  let '(h0, h1, h2, h3, h4) := fold_left compress (blocks (List.length p) p) H0 in
  be_bytes 4 h0 ++ be_bytes 4 h1 ++ be_bytes 4 h2 ++ be_bytes 4 h3 ++ be_bytes 4 h4.

Definition base64_alphabet : jsstring :=
  lit "ABCDEFGHIJKLMNOPQRSTUVWXYZabcdefghijklmnopqrstuvwxyz0123456789+/".

Definition base64_char (i : Z) : Z := default 0 (base64_alphabet !! Z.to_nat i).

Definition PAD : Z := 61.

(** [digest('base64')]: standard alphabet, padded with [=]. *)
Fixpoint base64 (fuel : nat) (bs : list Z) : jsstring :=
  match fuel, bs with
  | S k, b0 :: b1 :: b2 :: rest =>
      [base64_char (Z.shiftr b0 2);
       base64_char (Z.lor (Z.shiftl (Z.land b0 3) 4) (Z.shiftr b1 4));
       base64_char (Z.lor (Z.shiftl (Z.land b1 15) 2) (Z.shiftr b2 6));
       base64_char (Z.land b2 63)] ++ base64 k rest
  | S k, [b0; b1] =>
      [base64_char (Z.shiftr b0 2);
       base64_char (Z.lor (Z.shiftl (Z.land b0 3) 4) (Z.shiftr b1 4));
       base64_char (Z.shiftl (Z.land b1 15) 2);
       PAD]
  | S k, [b0] =>
      [base64_char (Z.shiftr b0 2);
       base64_char (Z.shiftl (Z.land b0 3) 4);
       PAD; PAD]
  | _, _ => []
  end.

Definition digest_base64 (bs : list Z) : jsstring := base64 (List.length bs) bs.

End Crypto.

Import Buffer.

(** ** The world the handlers act on *)

(** A socket is known by its identity. *)
Definition Socket := nat.

(** The calls the program makes on a socket: [socket.write(bytes)] (a string
    is written in UTF-8) and [socket.end()]. *)
Inductive SocketCall :=
| Write (bytes : Buffer)
| End.

(** The calls made so far, oldest first, and the module-level [sseClients]
    set, in insertion order. *)
Record World := {
  calls : list (Socket * SocketCall);
  sseClients : list Socket;
}.

Definition socket_write (socket : Socket) (bytes : Buffer) (w : World) : World :=
  {| calls := calls w ++ [(socket, Write bytes)]; sseClients := sseClients w |}.

Definition socket_write_string (socket : Socket) (s : jsstring) (w : World) : World :=
  socket_write socket (from_utf8 s) w.

Definition socket_end (socket : Socket) (w : World) : World :=
  {| calls := calls w ++ [(socket, End)]; sseClients := sseClients w |}.

(** [sseClients.add(socket)] and [sseClients.delete(socket)] *)
Definition sseClients_add (socket : Socket) (w : World) : World :=
  {| calls := calls w;
     sseClients := if decide (socket ∈ sseClients w) then sseClients w
                   else sseClients w ++ [socket] |}.

Definition sseClients_delete (socket : Socket) (w : World) : World :=
  {| calls := calls w;
     sseClients := filter (fun c => c ≠ socket) (sseClients w) |}.

(** ** HTTP responder *)

(** A JavaScript object with string keys: its entries in insertion order. *)
Definition Headers := list (jsstring * jsstring).

(** [headers[key] = value] *)
Fixpoint set_header (key value : jsstring) (headers : Headers) : Headers :=
  match headers with
  | [] => [(key, value)]
  | (k, v) :: rest =>
      if decide (k = key) then (k, value) :: rest
      else (k, v) :: set_header key value rest
  end.

Definition httpStatusMessages (status : Z) : option jsstring :=
  if status =? 200 then Some (lit "OK")
  else if status =? 201 then Some (lit "Created")
  else if status =? 202 then Some (lit "Accepted")
  else if status =? 204 then Some (lit "No Content")
  else if status =? 301 then Some (lit "Moved Permanently")
  else if status =? 302 then Some (lit "Found")
  else if status =? 304 then Some (lit "Not Modified")
  else if status =? 400 then Some (lit "Bad Request")
  else if status =? 401 then Some (lit "Unauthorized")
  else if status =? 403 then Some (lit "Forbidden")
  else if status =? 404 then Some (lit "Not Found")
  else if status =? 405 then Some (lit "Method Not Allowed")
  else if status =? 500 then Some (lit "Internal Server Error")
  else if status =? 501 then Some (lit "Not Implemented")
  else if status =? 502 then Some (lit "Bad Gateway")
  else if status =? 503 then Some (lit "Service Unavailable")
  else None.

Definition buildStatusLine (status : Z) : jsstring :=
  let message :=
    if truthy (httpStatusMessages status)
    then default [] (httpStatusMessages status)
    else lit "Unknown Status" in
  lit "HTTP/1.1 " ++ Number_toString status ++ lit " " ++ message ++ CRLF.

Definition buildHeaders (headers : Headers) : jsstring :=
  join (map (fun '(key, value) => key ++ lit ": " ++ value) headers) CRLF ++ CRLF.

Definition buildResponse (status : Z) (headers : Headers) (body : jsstring) : jsstring :=
  let statusLine := buildStatusLine status in
  let headerLines := buildHeaders headers in
  statusLine ++ headerLines ++ CRLF ++ body.

Definition handleSseRequest (socket : Socket) (w : World) : World :=
  let headers :=
    lit "HTTP/1.1 200 OK" ++ CRLF ++
    lit "Content-Type: text/event-stream" ++ CRLF ++
    lit "Cache-Control: no-cache" ++ CRLF ++
    lit "Connection: keep-alive" ++ CRLF ++
    lit "Access-Control-Allow-Origin: *" ++ CRLF ++ CRLF in
  sseClients_add socket (socket_write_string socket headers w).

(** The method and the path of a request: the first two pieces of its first
    line ([path] is undefined when the line has no space). *)
Definition requestLine (data : Buffer) : jsstring :=
  default [] (head (split (Buffer.toString data) CRLF)).

Definition request_method (data : Buffer) : option jsstring :=
  split (requestLine data) (lit " ") !! 0%nat.

Definition request_path (data : Buffer) : option jsstring :=
  split (requestLine data) (lit " ") !! 1%nat.

Definition baseHeaders : Headers :=
  [(lit "Content-Type", lit "text/plain");
   (lit "Access-Control-Allow-Origin", lit "*")].

Definition handleHttpRequest (data : Buffer) (socket : Socket) (w : World) : World :=
  let method := request_method data in
  let path := request_path data in
  let responseHeaders := baseHeaders in
  let route : option (Z * Headers * jsstring) :=
    if decide (method = Some (lit "GET") ∧ path = Some (lit "/")) then
      Some (200, responseHeaders, lit "Hello, world!")
    else if decide (method = Some (lit "GET") ∧ path = Some (lit "/websocket")) then
      let responseHeaders := set_header (lit "Upgrade") (lit "websocket") responseHeaders in
      let responseHeaders := set_header (lit "Connection") (lit "Upgrade") responseHeaders in
      Some (426, responseHeaders, lit "Upgrade Required")
    else if decide (method = Some (lit "GET") ∧ path = Some (lit "/serverside-events")) then
      None
    else
      Some (404, responseHeaders, lit "Not Found") in
  match route with
  | None => handleSseRequest socket w
  | Some (status, responseHeaders, responseBody) =>
      let response := buildResponse status responseHeaders responseBody in
      let w := socket_write_string socket response w in
      if decide (status ≠ 426) then socket_end socket w else w
  end.

(** ** WebSocket handshake *)

Definition GUID : jsstring := lit "258EAFA5-E914-47DA-95CA-C5AB0DC85B11".

Definition generateAcceptValue (key : jsstring) : jsstring :=
  Crypto.digest_base64 (Crypto.sha1 (from_binary (key ++ GUID))).

(** The header line the handshake takes its key from. *)
Definition keyHeader (data : Buffer) : option jsstring :=
  find (fun header => startsWith header (lit "Sec-WebSocket-Key"))
       (split (Buffer.toString data) CRLF).

(** [headers.find(...)?.split(': ')[1]] *)
Definition handshakeKey (data : Buffer) : option jsstring :=
  match keyHeader data with
  | Some header => split header (lit ": ") !! 1%nat
  | None => None
  end.

Definition handleWebSocketHandshake (data : Buffer) (socket : Socket) (w : World) : World :=
  let key := handshakeKey data in
  if truthy key then
    let acceptKey := generateAcceptValue (default [] key) in
    let response :=
      lit "HTTP/1.1 101 Switching Protocols" ++ CRLF ++
      lit "Upgrade: websocket" ++ CRLF ++
      lit "Connection: Upgrade" ++ CRLF ++
      lit "Sec-WebSocket-Accept: " ++ acceptKey ++ CRLF ++
      lit "Access-Control-Allow-Origin: *" ++ CRLF ++ CRLF in
    socket_write_string socket response w
  else w.

(** ** WebSocket frame codec *)

(** [Buffer.alloc(size)] *)
Definition alloc (size : Z) : Buffer := replicate (Z.to_nat size) 0.

(** [target[index] = value] on a buffer: the value is stored as a byte
    (nothing is stored out of range). *)
Definition store (index : nat) (value : Z) (target : Buffer) : Buffer :=
  <[index := uint8 value]> target.

(** [source.copy(target, targetStart)]: as many bytes as fit. *)
Definition copy (source target : Buffer) (targetStart : nat) : Buffer :=
  let room := (List.length target - targetStart)%nat in
  let n := Nat.min (List.length source) room in
  take targetStart target ++ take n source ++ drop (targetStart + n) target.

(** The frame [sendWebSocketFrame] builds for a message. *)
Definition encodeFrame (message : jsstring) : Buffer :=
  let payload := from_utf8 message in
  let frame := alloc (2 + Buffer.length payload) in
  let frame := store 0 0x81 frame in
  let frame := store 1 (Buffer.length payload) frame in
  copy payload frame 2.

Definition sendWebSocketFrame (socket : Socket) (message : jsstring) (w : World) : World :=
  socket_write socket (encodeFrame message) w.

(** [payloadData.map((byte, idx) => byte ^ maskingKey[idx % 4])]: an index
    past the end of the key reads undefined, which [^] takes as 0. *)
Definition unmask (maskingKey payloadData : Buffer) : Buffer :=
  imap (fun idx byte => uint8 (Z.lxor byte (default 0 (maskingKey !! (idx mod 4)%nat))))
       payloadData.

(** The local variables of [handleWebSocketFrames] once the payload has been
    taken out of the buffer. *)
Module Frame.
Record t := {
  fin : Z;
  opcode : Z;
  mask : Z;
  payloadLength : Z;
  offset : Z;
  maskingKey : option Buffer;
  payloadData : Buffer;
}.
End Frame.

(** The declared length and the offset after the length field. *)
Definition readLength (data : Buffer) : Completion (Z * Z) :=
  let payloadLength := band (data !! 1%nat) 0x7f in
  let offset := 2 in
  if payloadLength =? 126 then
    match readUInt16BE data offset with
    | Normal n => Normal (n, offset + 2)
    | Throw e => Throw e
    end
  else if payloadLength =? 127 then
    match readBigUInt64BE data offset with
    | Normal n => Normal (Number_of_BigInt n, offset + 8)
    | Throw e => Throw e
    end
  else Normal (payloadLength, offset).

(** Lines 150-173 of [handleWebSocketFrames]: the decoder. *)
Definition decodeFrame (data : Buffer) : Completion Frame.t :=
  let fin := band (data !! 0%nat) 0x80 in
  let opcode := band (data !! 0%nat) 0x0f in
  let mask := band (data !! 1%nat) 0x80 in
  match readLength data with
  | Throw e => Throw e
  | Normal (payloadLength, offset) =>
      let maskingKey :=
        if decide (mask ≠ 0) then Some (slice data offset (offset + 4)) else None in
      let offset := offset + (if decide (mask ≠ 0) then 4 else 0) in
      let payloadData := slice data offset (Js.add offset payloadLength) in
      let payloadData :=
        match maskingKey with
        | Some key => unmask key payloadData
        | None => payloadData
        end in
      Normal {| Frame.fin := fin; Frame.opcode := opcode; Frame.mask := mask;
                Frame.payloadLength := payloadLength; Frame.offset := offset;
                Frame.maskingKey := maskingKey; Frame.payloadData := payloadData |}
  end.

Definition handleWebSocketFrames (data : Buffer) (socket : Socket) (w : World)
  : Completion World :=
  match decodeFrame data with
  | Throw e => Throw e
  | Normal frame =>
      if Frame.opcode frame =? 0x1 then
        let message := Buffer.toString (Frame.payloadData frame) in
        Normal (sendWebSocketFrame socket message w)
      else if Frame.opcode frame =? 0x8 then
        Normal (socket_end socket w)
      else Normal w
  end.

(** ** Protocol classifier and dispatch *)

Definition isWebSocketHandshake (data : Buffer) : bool :=
  includes (Buffer.toString data) (lit "Sec-WebSocket-Key").

Definition isWebSocketFrame (data : Buffer) : bool :=
  (band (data !! 0%nat) 0x80 =? 0x80) && negb (band (data !! 0%nat) 0x0f =? 0x00).

Inductive Protocol := WebSocketHandshake | WebSocketFrame | HttpRequest.

(** The branch the ['data'] listener takes. *)
Definition classify (data : Buffer) : Protocol :=
  if isWebSocketHandshake data then WebSocketHandshake
  else if isWebSocketFrame data then WebSocketFrame
  else HttpRequest.

Definition on_data (data : Buffer) (socket : Socket) (w : World) : Completion World :=
  match classify data with
  | WebSocketHandshake => Normal (handleWebSocketHandshake data socket w)
  | WebSocketFrame => handleWebSocketFrames data socket w
  | HttpRequest => Normal (handleHttpRequest data socket w)
  end.

(** The ['end'] and ['close'] listeners. *)
Definition on_end (socket : Socket) (w : World) : World := sseClients_delete socket w.
Definition on_close (socket : Socket) (w : World) : World := sseClients_delete socket w.

(** ** Server-sent events *)

Module Sse.
Record SseMessage := {
  event : option jsstring;
  data : option jsstring;
  id : option jsstring;
  retry : option jsstring;
}.
End Sse.

(** One [if (message.field) formattedMessage += `name: ${field}\n`] step. *)
Definition field_line (name : jsstring) (value : option jsstring) : jsstring :=
  if truthy value then name ++ lit ": " ++ default [] value ++ NL else [].

Definition formatSseMessage (message : Sse.SseMessage) : jsstring :=
  let formattedMessage := [] in
  let formattedMessage := formattedMessage ++ field_line (lit "event") (Sse.event message) in
  let formattedMessage := formattedMessage ++ field_line (lit "data") (Sse.data message) in
  let formattedMessage := formattedMessage ++ field_line (lit "id") (Sse.id message) in
  let formattedMessage := formattedMessage ++ field_line (lit "retry") (Sse.retry message) in
  formattedMessage ++ NL.

Definition sendSseMessage (message : Sse.SseMessage) (w : World) : World :=
  let formattedMessage := formatSseMessage message in
  fold_left (fun w client => socket_write_string client formattedMessage w)
            (sseClients w) w.

(** The formatter as the specification words it: one line for every field
    that is present, whatever its value. *)
Definition spec_field_line (name : jsstring) (value : option jsstring) : jsstring :=
  match value with
  | Some v => name ++ lit ": " ++ v ++ NL
  | None => []
  end.

Definition spec_formatSseMessage (message : Sse.SseMessage) : jsstring :=
  spec_field_line (lit "event") (Sse.event message) ++
  spec_field_line (lit "data") (Sse.data message) ++
  spec_field_line (lit "id") (Sse.id message) ++
  spec_field_line (lit "retry") (Sse.retry message) ++ NL.

(** A field set to the empty string read as an absent one. *)
Definition nonempty (value : option jsstring) : option jsstring :=
  match value with
  | Some (c :: v) => Some (c :: v)
  | _ => None
  end.

Definition nonempty_fields (message : Sse.SseMessage) : Sse.SseMessage :=
  {| Sse.event := nonempty (Sse.event message);
     Sse.data := nonempty (Sse.data message);
     Sse.id := nonempty (Sse.id message);
     Sse.retry := nonempty (Sse.retry message) |}.

(** ** Well-formed inputs *)

Definition is_byte (x : Z) : Prop := 0 <= x < 256.

(** A buffer holds bytes. *)
Definition is_buffer (b : Buffer) : Prop := Forall is_byte b.

(** [buffer.constants.MAX_LENGTH]: no buffer is longer. *)
Definition MAX_LENGTH : Z := 2 ^ 53 - 1.

(** [s] contains [pat] as a substring. *)
Definition contains (s pat : jsstring) : Prop :=
  exists pre post, s = pre ++ pat ++ post.

(** The request line of [data] has this method and this path. *)
Definition is_request (data : Buffer) (method path : string) : Prop :=
  request_method data = Some (lit method) /\ request_path data = Some (lit path).

(** The frame signature of the classifier: byte 0 has its top bit set and
    a non-zero low nibble. *)
Definition frame_signature (data : Buffer) : Prop :=
  exists byte0, data !! 0%nat = Some byte0 /\
                Z.testbit byte0 7 = true /\ Z.land byte0 0x0f <> 0.

(** No line of the request starts with [Sec-WebSocket-Key]. *)
Definition no_key_header (data : Buffer) : Prop :=
  Forall (fun header => startsWith header (lit "Sec-WebSocket-Key") = false)
         (split (Buffer.toString data) CRLF).

(** ** The periodic broadcast *)

(** The callback of [setInterval]: four messages, one after the other.  The
    two [new Date().toISOString()] strings and the [Date.now()] number it
    reads are inputs. *)
Definition tick (iso1 iso2 : jsstring) (now : Z) (w : World) : World :=
  let w := sendSseMessage
             {| Sse.event := Some (lit "ping");
                Sse.data := Some (lit "Ping event at " ++ iso1);
                Sse.id := None; Sse.retry := None |} w in
  let w := sendSseMessage
             {| Sse.event := None;
                Sse.data := Some (lit "Server time: " ++ iso2);
                Sse.id := None; Sse.retry := None |} w in
  let w := sendSseMessage
             {| Sse.event := None; Sse.data := None;
                Sse.id := Some (Number_toString now); Sse.retry := None |} w in
  sendSseMessage
    {| Sse.event := None; Sse.data := None;
       Sse.id := None; Sse.retry := Some (lit "3000") |} w.

(** One write of [text] on each of [clients], in their order. *)
Definition deliveries (clients : list Socket) (text : jsstring)
  : list (Socket * SocketCall) :=
  map (fun client => (client, Write (from_utf8 text))) clients.

(** The response [handleSseRequest] opens a stream with. *)
Definition sseResponse : jsstring :=
  lit "HTTP/1.1 200 OK" ++ CRLF ++
  lit "Content-Type: text/event-stream" ++ CRLF ++
  lit "Cache-Control: no-cache" ++ CRLF ++
  lit "Connection: keep-alive" ++ CRLF ++
  lit "Access-Control-Allow-Origin: *" ++ CRLF ++ CRLF.

(** The effects a handler can have on the world. *)
Inductive effect_of (socket : Socket) (w : World) : World -> Prop :=
| effect_none : effect_of socket w w
| effect_write bytes : effect_of socket w (socket_write socket bytes w)
| effect_end : effect_of socket w (socket_end socket w)
| effect_write_end bytes :
    effect_of socket w (socket_end socket (socket_write socket bytes w))
| effect_write_register bytes :
    effect_of socket w (sseClients_add socket (socket_write socket bytes w)).

(** ** Frames as a client sends them *)

(** A masked frame with first byte [byte0], as RFC 6455 (5.2) lays it out:
    the mask bit with the length, in its 7-bit, 16-bit or 64-bit form, the
    four bytes of the key, the payload XOR-ed with the key. *)
Definition clientFrame (byte0 : Z) (key payload : Buffer) : Buffer :=
  let L := Buffer.length payload in
  let header :=
    if L <=? 125 then [0x80 + L]
    else if L <=? 0xFFFF then 0xFE :: Crypto.be_bytes 2 L
    else 0xFF :: Crypto.be_bytes 8 L in
  byte0 :: header ++ key ++ unmask key payload.

(** The offset of the payload in a masked frame. *)
Definition clientOffset (L : Z) : Z :=
  if L <=? 125 then 6 else if L <=? 0xFFFF then 8 else 14.

(** Text made of ASCII characters only. *)
Definition is_ascii (s : jsstring) : Prop := Forall (fun c => 0 <= c < 128) s.

(** The length code of a frame: the low seven bits of byte 1. *)
Definition lengthCode (data : Buffer) : Z := band (data !! 1%nat) 0x7f.

(** The buffers the frame decoder throws on: an extended length that the
    buffer does not hold in full. *)
Definition truncated_length (data : Buffer) : Prop :=
  (lengthCode data = 126 /\ Buffer.length data < 4) \/
  (lengthCode data = 127 /\ Buffer.length data < 10).

(** ** Texts of the responses *)

(** The response of a completed handshake, for an accept value. *)
Definition handshakeResponse (acceptKey : jsstring) : jsstring :=
  lit "HTTP/1.1 101 Switching Protocols" ++ CRLF ++
  lit "Upgrade: websocket" ++ CRLF ++
  lit "Connection: Upgrade" ++ CRLF ++
  lit "Sec-WebSocket-Accept: " ++ acceptKey ++ CRLF ++
  lit "Access-Control-Allow-Origin: *" ++ CRLF ++ CRLF.

(** One header as a line of its own. *)
Definition headerLine (header : jsstring * jsstring) : jsstring :=
  header.1 ++ lit ": " ++ header.2 ++ CRLF.

(** ** Events on the wire *)

(** No value of the message holds a line feed. *)
Definition lf_free (message : Sse.SseMessage) : Prop :=
  forall value,
    Sse.event message = Some value \/ Sse.data message = Some value \/
    Sse.id message = Some value \/ Sse.retry message = Some value ->
    LF ∉ value.

(** The lines of the formatted message, without their line feeds. *)
Definition line_of (name : jsstring) (value : option jsstring) : list jsstring :=
  match nonempty value with
  | Some v => [name ++ lit ": " ++ v]
  | None => []
  end.

Definition sseLines (message : Sse.SseMessage) : list jsstring :=
  line_of (lit "event") (Sse.event message) ++
  line_of (lit "data") (Sse.data message) ++
  line_of (lit "id") (Sse.id message) ++
  line_of (lit "retry") (Sse.retry message).

(** The calls made on one socket, in order. *)
Definition callsOn (socket : Socket) (w : World) : list SocketCall :=
  map snd (filter (fun call => call.1 = socket) (calls w)).

(** * Properties *)

(** ** The runtime models on known vectors *)

(** FIPS 180-4 examples: one block, the empty message, two blocks. *)
Example sha1_abc :
  Crypto.sha1 (from_binary (lit "abc")) =
    Crypto.be_bytes 20 0xa9993e364706816aba3e25717850c26c9cd0d89d.
Proof. vm_compute. reflexivity. Qed.

Example sha1_empty :
  Crypto.sha1 [] = Crypto.be_bytes 20 0xda39a3ee5e6b4b0d3255bfef95601890afd80709.
Proof. vm_compute. reflexivity. Qed.

Example sha1_two_blocks :
  Crypto.sha1 (from_binary
     (lit "abcdbcdecdefdefgefghfghighijhijkijkljklmklmnlmnomnopnopq")) =
    Crypto.be_bytes 20 0x84983e441c3bd26ebaae4aa1f95129e5e54670f1.
Proof. vm_compute. reflexivity. Qed.

(** RFC 4648 examples, one for each padding. *)
Example base64_foobar :
  Crypto.digest_base64 (from_binary (lit "foobar")) = lit "Zm9vYmFy" /\
  Crypto.digest_base64 (from_binary (lit "fooba")) = lit "Zm9vYmE=" /\
  Crypto.digest_base64 (from_binary (lit "foob")) = lit "Zm9vYg==".
Proof. vm_compute. repeat split. Qed.

(** U+20AC, U+1F600, an overlong lead byte, a truncated sequence, [A]. *)
Example toString_replaces_ill_formed :
  Buffer.toString [0xE2; 0x82; 0xAC; 0xF0; 0x9F; 0x98; 0x80; 0xC0; 0xE2; 0x41] =
    [0x20AC; 0xD83D; 0xDE00; 0xFFFD; 0xFFFD; 0x41].
Proof. vm_compute. reflexivity. Qed.

Example from_utf8_surrogates :
  from_utf8 [0x20AC; 0xD83D; 0xDE00; 0xD800; 0x41] =
    [0xE2; 0x82; 0xAC; 0xF0; 0x9F; 0x98; 0x80; 0xEF; 0xBF; 0xBD; 0x41].
Proof. vm_compute. reflexivity. Qed.

Example split_request_line :
  split (lit "GET / HTTP/1.1") (lit " ") = [lit "GET"; lit "/"; lit "HTTP/1.1"] /\
  split (lit "Sec-WebSocket-Key: a: b") (lit ": ") =
    [lit "Sec-WebSocket-Key"; lit "a"; lit "b"] /\
  split [] CRLF = [[]].
Proof. vm_compute. repeat split. Qed.

(** Ties go to the even significand; [2^64 - 1] rounds up to [2^64]. *)
Example to_double_rounds :
  to_double (2 ^ 53 + 1) = 2 ^ 53 /\
  to_double (2 ^ 53 + 3) = 2 ^ 53 + 4 /\
  to_double (2 ^ 64 - 1) = 2 ^ 64.
Proof. vm_compute. repeat split. Qed.

(** ** Strings *)

Lemma startsWith_true (s pat : jsstring) :
  startsWith s pat = true <-> exists post, s = pat ++ post.
Proof.
  revert s. induction pat as [|p pat IH]; intros s; simpl.
  - split; [intros _; by exists s | done].
  - destruct s as [|c s].
    + split; [done | intros [post Hp]; discriminate Hp].
    + destruct (decide (p = c)) as [->|Hne].
      * rewrite IH. split; intros [post Hp]; exists post; [by rewrite Hp | by injection Hp].
      * split; [done | intros [post Hp]; injection Hp; congruence].
Qed.

Lemma includes_true (s pat : jsstring) :
  includes s pat = true <-> contains s pat.
Proof.
  unfold contains. induction s as [|c s IH].
  - simpl. rewrite orb_false_r, startsWith_true. split.
    + intros [post Hp]. by exists [], post.
    + intros (pre & post & Hp). destruct pre; [by exists post |].
      discriminate Hp.
  - cbn [includes]. rewrite orb_true_iff, startsWith_true, IH. split.
    + intros [[post Hp] | (pre & post & Hp)].
      * by exists [], post.
      * exists (c :: pre), post. by rewrite Hp.
    + intros (pre & post & Hp). destruct pre as [|c' pre].
      * left. by exists post.
      * right. exists pre, post. by injection Hp.
Qed.

Lemma split_go_cons (sep : jsstring) (skip : nat) (cur s : jsstring) :
  exists first rest, split_go sep skip cur s = first :: rest.
Proof.
  revert skip cur. induction s as [|c s IH]; intros skip cur; simpl.
  - by eexists _, _.
  - destruct skip; [|apply IH].
    destruct (_ : bool) in |- *; [by eexists _, _ | apply IH].
Qed.

(** [split] always yields a first piece. *)
Lemma split_cons (s sep : jsstring) :
  exists first rest, split s sep = first :: rest.
Proof. apply split_go_cons. Qed.

(** ** Buffers *)

Lemma length_slice (b : Buffer) (start end_ : Z) :
  0 <= start ->
  Buffer.length (slice b start end_) =
    Z.max 0 (Z.min end_ (Buffer.length b) - Z.min start (Buffer.length b)).
Proof.
  intros Hs. unfold slice, Buffer.length.
  rewrite length_take, length_drop.
  destruct (Z.ltb_spec (Z.min start (Z.of_nat (List.length b)))
                       (Z.min end_ (Z.of_nat (List.length b)))); lia.
Qed.

Lemma length_unmask (key payload : Buffer) :
  List.length (unmask key payload) = List.length payload.
Proof. apply length_imap. Qed.

Lemma uint8_lxor_twice (byte k : Z) :
  is_byte byte -> uint8 (Z.lxor (uint8 (Z.lxor byte k)) k) = byte.
Proof.
  intros Hb. unfold uint8. change 256 with (2 ^ 8).
  rewrite <- !Z.land_ones by lia.
  apply Z.bits_inj'. intros n Hn.
  rewrite Z.land_spec, Z.lxor_spec, Z.land_spec, Z.lxor_spec.
  destruct (Z.lt_ge_cases n 8) as [Hlt|Hge].
  - rewrite Z.ones_spec_low by lia.
    by destruct (Z.testbit byte n), (Z.testbit k n).
  - rewrite Z.ones_spec_high by lia.
    rewrite !andb_false_r. symmetry.
    rewrite <- (Z.mod_small byte (2 ^ 8)) by exact Hb.
    apply Z.mod_pow2_bits_high. lia.
Qed.

Lemma to_double_small (v : Z) : 0 <= v < 2 ^ 53 -> to_double v = v.
Proof.
  intros Hv. unfold to_double.
  destruct (Z.ltb_spec (Z.log2 v) 53) as [|Hge]; [done |].
  exfalso. destruct (Z.eq_dec v 0) as [->|]; [by compute in Hge |].
  apply Z.log2_le_pow2 in Hge; lia.
Qed.

Lemma to_double_large (v : Z) : 2 ^ 53 <= v -> 2 ^ 53 <= to_double v.
Proof.
  intros Hv. unfold to_double.
  destruct (Z.ltb_spec (Z.log2 v) 53) as [|Hge]; [lia |].
  set (e := Z.log2 v - 52).
  assert (He : 1 <= e) by (unfold e; lia).
  assert (Hq : 2 ^ 52 <= Z.shiftr v e).
  { rewrite Z.shiftr_div_pow2 by lia.
    apply Z.div_le_lower_bound; [lia |].
    rewrite <- Z.pow_add_r by lia.
    replace (e + 52) with (Z.log2 v) by (unfold e; lia).
    apply Z.log2_spec. lia. }
  rewrite Z.shiftl_mul_pow2 by lia.
  assert (H2 : 2 ^ 1 <= 2 ^ e) by (apply Z.pow_le_mono_r; lia).
  destruct (_ : bool) in |- *; nia.
Qed.

(** The end of the payload slice, as far as a buffer can tell it from the
    exact sum. *)
Lemma add_clamped (offset payloadLength len : Z) :
  0 <= offset -> 0 <= payloadLength -> len <= MAX_LENGTH ->
  Z.min (Js.add offset payloadLength) len = Z.min (offset + payloadLength) len.
Proof.
  unfold MAX_LENGTH, Js.add. intros Ho Hp Hl.
  destruct (Z.lt_ge_cases (offset + payloadLength) (2 ^ 53)) as [Hlt|Hge].
  - by rewrite to_double_small by lia.
  - pose proof (to_double_large _ Hge). lia.
Qed.

Lemma to_double_nonneg (v : Z) : 0 <= v -> 0 <= to_double v.
Proof.
  intros Hv. destruct (Z.lt_ge_cases v (2 ^ 53)) as [Hlt|Hge].
  - by rewrite to_double_small.
  - pose proof (to_double_large _ Hge). lia.
Qed.

Lemma be_value_nonneg (bs : list Z) : Forall is_byte bs -> 0 <= be_value bs.
Proof.
  unfold be_value. generalize (Z.le_refl 0). generalize 0 at 2 4 as acc.
  intros acc Hacc Hbs. revert acc Hacc.
  induction Hbs as [|x l Hx _ IH]; intros acc Hacc; simpl; [done |].
  apply IH. unfold is_byte in Hx. lia.
Qed.

Lemma readLength_bounds (data : Buffer) (payloadLength offset : Z) :
  is_buffer data ->
  readLength data = Normal (payloadLength, offset) ->
  0 <= payloadLength /\ 2 <= offset <= 10.
Proof.
  intros Hb. unfold readLength, band.
  assert (Hlook : forall i x, data !! i = Some x -> is_byte x)
    by (intros i x; apply (Forall_lookup_1 _ _ _ _ Hb)).
  destruct (_ =? 126).
  - unfold readUInt16BE.
    destruct (data !! _) as [first|] eqn:H1; [|done].
    destruct (data !! _) as [last|] eqn:H2 in |- *; [|done].
    intros [= <- <-]. apply Hlook in H1, H2. unfold is_byte in *. lia.
  - destruct (_ =? 127).
    + unfold readBigUInt64BE.
      destruct (data !! _) as [first|]; [|done].
      destruct (data !! _) as [last|]; [|done].
      intros [= <- <-]. split; [|lia].
      apply to_double_nonneg, be_value_nonneg, Forall_take, Forall_drop, Hb.
    + intros [= <- <-]. split; [|lia].
      apply Z.land_nonneg. lia.
Qed.

(** The frame the encoder builds, written out. *)
Lemma encodeFrame_bytes (message : jsstring) :
  encodeFrame message =
    0x81 :: Buffer.length (from_utf8 message) mod 256 :: from_utf8 message.
Proof.
  unfold encodeFrame, alloc, store, copy, Buffer.length.
  set (payload := from_utf8 message).
  replace (Z.to_nat (2 + Z.of_nat (List.length payload)))
    with (S (S (List.length payload))) by lia.
  cbn [replicate]. cbn.
  rewrite length_replicate, Nat.sub_0_r, Nat.min_id.
  rewrite firstn_all.
  rewrite drop_replicate, Nat.sub_diag. cbn [replicate].
  by rewrite app_nil_r.
Qed.

Lemma land_bit7 (b : Z) : Z.land b 0x80 = 0x80 <-> Z.testbit b 7 = true.
Proof.
  change 0x80 with (2 ^ 7). split.
  - intros H.
    assert (Hb : Z.testbit (Z.land b (2 ^ 7)) 7 = true)
      by (rewrite H; apply Z.pow2_bits_true; lia).
    rewrite Z.land_spec in Hb. by apply andb_true_iff in Hb as [Hb _].
  - intros H. apply Z.bits_inj'. intros n Hn.
    rewrite Z.land_spec, Z.pow2_bits_eqb by lia.
    destruct (Z.eqb_spec 7 n) as [<-|]; [by rewrite H | apply andb_false_r].
Qed.

(** ** The claims *)

(** C1. The accept value of the handshake (the key followed by the fixed
    GUID, hashed with SHA-1, the digest in base64) for the key
    [dGhlIHNhbXBsZSBub25jZQ==] is [s3pPLMBiTxaQ9kYGzzhZRbK+xOo=], the test
    vector of RFC 6455. *)
Theorem generateAcceptValue_rfc6455 :
  GUID = lit "258EAFA5-E914-47DA-95CA-C5AB0DC85B11" /\
  generateAcceptValue (lit "dGhlIHNhbXBsZSBub25jZQ==") =
    lit "s3pPLMBiTxaQ9kYGzzhZRbK+xOo=".
Proof. split; [reflexivity | vm_compute; reflexivity]. Qed.

(** C2. The frame the encoder builds for the text [hello], given to the
    decoder, yields a frame with opcode 1 whose payload decodes to the text
    [hello]. *)
Theorem frame_round_trip_hello :
  encodeFrame (lit "hello") = [0x81; 0x05; 0x68; 0x65; 0x6c; 0x6c; 0x6f] /\
  exists frame,
    decodeFrame (encodeFrame (lit "hello")) = Normal frame /\
    Buffer.toString (Frame.payloadData frame) = lit "hello" /\
    Frame.opcode frame = 1.
Proof.
  split; [vm_compute; reflexivity |].
  exists {| Frame.fin := 0x80; Frame.opcode := 1; Frame.mask := 0;
            Frame.payloadLength := 5; Frame.offset := 2;
            Frame.maskingKey := None;
            Frame.payloadData := [104; 101; 108; 108; 111] |}.
  split; [vm_compute; reflexivity |].
  split; vm_compute; reflexivity.
Qed.

(** C3. XOR-ing every byte of a payload with [maskingKey[index mod 4]] is an
    involution: masking twice with the same key gives the payload back.  It
    holds for every key, so for every key of four bytes. *)
Theorem unmask_involutive (maskingKey payload : Buffer) :
  is_buffer payload ->
  unmask maskingKey (unmask maskingKey payload) = payload.
Proof.
  intros Hb. apply list_eq. intros i. unfold unmask.
  rewrite !list_lookup_imap.
  destruct (payload !! i) as [byte|] eqn:Hi; [|done].
  simpl. f_equal. apply uint8_lxor_twice.
  eapply Forall_lookup_1; [exact Hb | exact Hi].
Qed.

Lemma unmask_involutive_witness :
  let key := [0x37; 0xfa; 0x21; 0x3d] in
  let payload := from_utf8 (lit "Hello") in
  unmask key payload = [0x7f; 0x9f; 0x4d; 0x51; 0x58] /\
  unmask key (unmask key payload) = payload.
Proof.
  split; [reflexivity |].
  apply (unmask_involutive [0x37; 0xfa; 0x21; 0x3d] (from_utf8 (lit "Hello"))).
  unfold is_buffer, is_byte. vm_compute. repeat constructor; discriminate.
Defined.

(** C4. The HTTP responder: [GET /] is answered 200 with the body
    [Hello, world!]; [GET /websocket] is answered 426 with the body
    [Upgrade Required] and the headers [Upgrade: websocket] and
    [Connection: Upgrade]; every other request but [GET /serverside-events]
    is answered 404 with the body [Not Found]; each of these responses has
    the headers [Content-Type: text/plain] and
    [Access-Control-Allow-Origin: *]; and [socket.end()] follows the write
    exactly when the status is not 426. *)
Theorem handleHttpRequest_routes (data : Buffer) (socket : Socket) (w : World) :
  (is_request data "GET" "/" ->
   handleHttpRequest data socket w =
     socket_end socket
       (socket_write_string socket
          (buildResponse 200
             [(lit "Content-Type", lit "text/plain");
              (lit "Access-Control-Allow-Origin", lit "*")]
             (lit "Hello, world!")) w)) /\
  (is_request data "GET" "/websocket" ->
   handleHttpRequest data socket w =
     socket_write_string socket
       (buildResponse 426
          [(lit "Content-Type", lit "text/plain");
           (lit "Access-Control-Allow-Origin", lit "*");
           (lit "Upgrade", lit "websocket");
           (lit "Connection", lit "Upgrade")]
          (lit "Upgrade Required")) w) /\
  (~ is_request data "GET" "/" ->
   ~ is_request data "GET" "/websocket" ->
   ~ is_request data "GET" "/serverside-events" ->
   handleHttpRequest data socket w =
     socket_end socket
       (socket_write_string socket
          (buildResponse 404
             [(lit "Content-Type", lit "text/plain");
              (lit "Access-Control-Allow-Origin", lit "*")]
             (lit "Not Found")) w)).
Proof.
  unfold is_request, handleHttpRequest.
  split; [|split].
  - intros H. rewrite decide_True by exact H. reflexivity.
  - intros [Hm Hp].
    destruct (decide _) as [[_ H]|_]; [rewrite Hp in H; discriminate H |].
    rewrite decide_True by (split; assumption). reflexivity.
  - intros H1 H2 H3.
    destruct (decide _) as [H|_]; [contradiction |].
    destruct (decide _) as [H|_]; [contradiction |].
    destruct (decide _) as [H|_]; [contradiction |].
    reflexivity.
Qed.

Lemma handleHttpRequest_routes_witness :
  let w0 := {| calls := []; sseClients := [] |} in
  calls (handleHttpRequest (from_utf8 (lit "GET / HTTP/1.1" ++ CRLF ++ CRLF)) 7%nat w0) =
    [(7%nat, Write (from_utf8
        (lit "HTTP/1.1 200 OK" ++ CRLF ++
         lit "Content-Type: text/plain" ++ CRLF ++
         lit "Access-Control-Allow-Origin: *" ++ CRLF ++ CRLF ++
         lit "Hello, world!")));
     (7%nat, End)] /\
  calls (handleHttpRequest (from_utf8 (lit "GET /websocket HTTP/1.1" ++ CRLF ++ CRLF)) 7%nat w0) =
    [(7%nat, Write (from_utf8
        (lit "HTTP/1.1 426 Unknown Status" ++ CRLF ++
         lit "Content-Type: text/plain" ++ CRLF ++
         lit "Access-Control-Allow-Origin: *" ++ CRLF ++
         lit "Upgrade: websocket" ++ CRLF ++
         lit "Connection: Upgrade" ++ CRLF ++ CRLF ++
         lit "Upgrade Required")))] /\
  calls (handleHttpRequest (from_utf8 (lit "POST /nope HTTP/1.1" ++ CRLF ++ CRLF)) 7%nat w0) =
    [(7%nat, Write (from_utf8
        (lit "HTTP/1.1 404 Not Found" ++ CRLF ++
         lit "Content-Type: text/plain" ++ CRLF ++
         lit "Access-Control-Allow-Origin: *" ++ CRLF ++ CRLF ++
         lit "Not Found")));
     (7%nat, End)].
Proof.
  intros w0. split; [|split].
  - rewrite (proj1 (handleHttpRequest_routes _ 7%nat w0));
      [vm_compute; reflexivity |].
    split; vm_compute; reflexivity.
  - rewrite (proj1 (proj2 (handleHttpRequest_routes _ 7%nat w0)));
      [vm_compute; reflexivity |].
    split; vm_compute; reflexivity.
  - rewrite (proj2 (proj2 (handleHttpRequest_routes _ 7%nat w0)));
      [vm_compute; reflexivity | | |];
      intros [H _]; vm_compute in H; discriminate H.
Defined.

(** ** Server-sent events *)

Lemma field_line_nonempty (name : jsstring) (value : option jsstring) :
  field_line name value = spec_field_line name (nonempty value).
Proof. by destruct value as [[|c v]|]. Qed.

(** C5, as the specification states it, fails on a field that is present
    with the empty string as its value: the specification emits the line
    [event: ], the formatter emits nothing for it. *)
Lemma formatSseMessage_present_empty :
  let message := {| Sse.event := Some []; Sse.data := None;
                    Sse.id := None; Sse.retry := None |} in
  spec_formatSseMessage message = lit "event: " ++ NL ++ NL /\
  formatSseMessage message = NL /\
  formatSseMessage message <> spec_formatSseMessage message.
Proof. repeat split. discriminate. Qed.

(** C5, amended.  For every message the formatter emits, in the fixed order
    event, data, id, retry, one line [<fieldname>: <value>\n] for every field
    that is present with a non-empty value, nothing for the others, and one
    closing [\n]; [{event: "ping", data: "x"}] gives
    [event: ping\ndata: x\n\n] and [{}] gives [\n]. *)
Theorem formatSseMessage_lines (message : Sse.SseMessage) :
  formatSseMessage message = spec_formatSseMessage (nonempty_fields message) /\
  formatSseMessage {| Sse.event := Some (lit "ping"); Sse.data := Some (lit "x");
                      Sse.id := None; Sse.retry := None |} =
    lit "event: ping" ++ NL ++ lit "data: x" ++ NL ++ NL /\
  formatSseMessage {| Sse.event := None; Sse.data := None;
                      Sse.id := None; Sse.retry := None |} = NL.
Proof.
  split; [|split; reflexivity].
  unfold formatSseMessage, spec_formatSseMessage, nonempty_fields.
  cbn [Sse.event Sse.data Sse.id Sse.retry].
  rewrite !field_line_nonempty, <- !app_assoc. reflexivity.
Qed.

(** C9. A field whose value is the empty string is formatted as an absent
    one: it gives no line, whatever the other fields are, and the message
    with all four fields empty formats to [\n], as [{}] does. *)
Theorem formatSseMessage_empty_as_absent (event data id retry : option jsstring) :
  formatSseMessage {| Sse.event := Some []; Sse.data := data; Sse.id := id; Sse.retry := retry |} =
    formatSseMessage {| Sse.event := None; Sse.data := data; Sse.id := id; Sse.retry := retry |} /\
  formatSseMessage {| Sse.event := event; Sse.data := Some []; Sse.id := id; Sse.retry := retry |} =
    formatSseMessage {| Sse.event := event; Sse.data := None; Sse.id := id; Sse.retry := retry |} /\
  formatSseMessage {| Sse.event := event; Sse.data := data; Sse.id := Some []; Sse.retry := retry |} =
    formatSseMessage {| Sse.event := event; Sse.data := data; Sse.id := None; Sse.retry := retry |} /\
  formatSseMessage {| Sse.event := event; Sse.data := data; Sse.id := id; Sse.retry := Some [] |} =
    formatSseMessage {| Sse.event := event; Sse.data := data; Sse.id := id; Sse.retry := None |} /\
  formatSseMessage {| Sse.event := Some []; Sse.data := Some []; Sse.id := Some []; Sse.retry := Some [] |} = NL /\
  formatSseMessage {| Sse.event := None; Sse.data := None; Sse.id := None; Sse.retry := None |} = NL.
Proof. repeat split. Qed.

(** ** Classifier *)

Lemma isWebSocketFrame_signature (data : Buffer) :
  isWebSocketFrame data = true <-> frame_signature data.
Proof.
  unfold isWebSocketFrame, frame_signature, band.
  rewrite andb_true_iff, negb_true_iff, Z.eqb_eq, Z.eqb_neq, land_bit7.
  destruct (data !! 0%nat) as [byte0|]; simpl.
  - split; [intros [H1 H2]; by exists byte0 | by intros (? & [= <-] & ? & ?)].
  - split; [by intros [[=] _] | by intros (? & [=] & _)].
Qed.

(** C6. A buffer whose text contains [Sec-WebSocket-Key] is classified as a
    handshake, whatever else it holds; one that does not is classified as a
    frame exactly when byte 0 has its top bit set and a non-zero low nibble;
    and as an HTTP request otherwise.  [on_data] runs the handler of the
    class. *)
Theorem classify_cases (data : Buffer) :
  (contains (Buffer.toString data) (lit "Sec-WebSocket-Key") ->
   classify data = WebSocketHandshake) /\
  (~ contains (Buffer.toString data) (lit "Sec-WebSocket-Key") ->
   (classify data = WebSocketFrame <-> frame_signature data)) /\
  (~ contains (Buffer.toString data) (lit "Sec-WebSocket-Key") ->
   ~ frame_signature data ->
   classify data = HttpRequest) /\
  (forall socket w,
     on_data data socket w =
       match classify data with
       | WebSocketHandshake => Normal (handleWebSocketHandshake data socket w)
       | WebSocketFrame => handleWebSocketFrames data socket w
       | HttpRequest => Normal (handleHttpRequest data socket w)
       end).
Proof.
  split; [|split; [|split; [|reflexivity]]];
    rewrite <- ?includes_true, <- ?isWebSocketFrame_signature;
    unfold classify, isWebSocketHandshake;
    destruct (includes _ _); destruct (isWebSocketFrame data);
    repeat split; intros; try reflexivity; congruence.
Qed.

Lemma classify_cases_witness :
  classify (0x81 :: from_utf8 (lit "Sec-WebSocket-Key: abc")) = WebSocketHandshake /\
  classify [0x81; 0x05; 0x68; 0x65; 0x6c; 0x6c; 0x6f] = WebSocketFrame /\
  classify (from_utf8 (lit "GET / HTTP/1.1" ++ CRLF ++ CRLF)) = HttpRequest.
Proof.
  assert (Hno : forall data,
             includes (Buffer.toString data) (lit "Sec-WebSocket-Key") = false ->
             ~ contains (Buffer.toString data) (lit "Sec-WebSocket-Key")).
  { intros data Hf Hc. apply includes_true in Hc. congruence. }
  split; [|split].
  - apply (proj1 (classify_cases _)).
    exists [0xFFFD], (lit ": abc"). vm_compute. reflexivity.
  - apply (proj1 (proj2 (classify_cases _))).
    + apply Hno. vm_compute. reflexivity.
    + exists 0x81. repeat split. discriminate.
  - apply (proj1 (proj2 (proj2 (classify_cases _)))).
    + apply Hno. vm_compute. reflexivity.
    + intros (byte0 & Hb & Ht & _). vm_compute in Hb.
      injection Hb as <-. discriminate Ht.
Defined.

(** ** Handshake *)

Lemma find_Forall_false {A} (f : A -> bool) (l : list A) :
  Forall (fun x => f x = false) l -> find f l = None.
Proof. induction 1 as [|x l Hx _ IH]; simpl; [done | by rewrite Hx]. Qed.

(** C7. A buffer classified as a handshake in which no header line starts
    with [Sec-WebSocket-Key] gets no answer: the handler makes no call on the
    socket, neither [write] nor [end], and leaves the world as it was. *)
Theorem handshake_without_key_header (data : Buffer) (socket : Socket) (w : World) :
  classify data = WebSocketHandshake ->
  no_key_header data ->
  handleWebSocketHandshake data socket w = w /\
  on_data data socket w = Normal w.
Proof.
  intros Hc Hno.
  assert (Hh : handleWebSocketHandshake data socket w = w).
  { unfold handleWebSocketHandshake, handshakeKey, keyHeader.
    by rewrite (find_Forall_false _ _ Hno). }
  split; [exact Hh |].
  unfold on_data. by rewrite Hc, Hh.
Qed.

Lemma handshake_without_key_header_witness :
  let data := from_utf8 (lit "GET /chat HTTP/1.1" ++ CRLF ++
                         lit "X-Sec-WebSocket-Key: dGhlIHNhbXBsZSBub25jZQ==" ++ CRLF ++ CRLF) in
  let w0 := {| calls := []; sseClients := [] |} in
  handleWebSocketHandshake data 7%nat w0 = w0 /\
  on_data data 7%nat w0 = Normal w0.
Proof.
  intros data w0. apply (handshake_without_key_header data 7%nat w0).
  - vm_compute. reflexivity.
  - unfold no_key_header. vm_compute. repeat constructor.
Defined.

(** ** Frame codec *)

(** C8, as the specification states it, fails on a buffer that is shorter
    than the length it declares: the payload is what the buffer holds. *)
Lemma decodeFrame_short_payload :
  exists frame,
    decodeFrame [0x81; 0x05; 0x68] = Normal frame /\
    Frame.payloadLength frame = 5 /\
    Frame.payloadData frame = [0x68] /\
    Buffer.length (Frame.payloadData frame) <> Frame.payloadLength frame.
Proof.
  exists {| Frame.fin := 0x80; Frame.opcode := 1; Frame.mask := 0;
            Frame.payloadLength := 5; Frame.offset := 2;
            Frame.maskingKey := None; Frame.payloadData := [0x68] |}.
  split; [vm_compute; reflexivity |].
  repeat split. discriminate.
Qed.

(** C8, amended.  For every buffer the decoder decodes, the payload after
    unmasking has the declared [payloadLength] whenever the buffer holds that
    many bytes after the header (the two leading bytes, the extended length
    and the masking key); in general its length is the smaller of
    [payloadLength] and the number of bytes the buffer holds after the
    header. *)
Theorem decodeFrame_payload_length (data : Buffer) (frame : Frame.t) :
  is_buffer data ->
  Buffer.length data <= MAX_LENGTH ->
  decodeFrame data = Normal frame ->
  Buffer.length (Frame.payloadData frame) =
    Z.min (Frame.payloadLength frame)
          (Z.max 0 (Buffer.length data - Frame.offset frame)) /\
  (Frame.offset frame + Frame.payloadLength frame <= Buffer.length data ->
   Buffer.length (Frame.payloadData frame) = Frame.payloadLength frame).
Proof.
  intros Hb Hmax. unfold decodeFrame.
  destruct (readLength data) as [[payloadLength offset]|] eqn:Hr; [|done].
  destruct (readLength_bounds _ _ _ Hb Hr) as [Hp Ho].
  intros [= <-]. cbn [Frame.payloadData Frame.payloadLength Frame.offset].
  set (offset' := offset + (if decide _ then 4 else 0)).
  assert (Ho' : 2 <= offset' <= 14) by (unfold offset'; destruct (decide _); lia).
  assert (Hlen : Buffer.length
            (slice data offset' (Js.add offset' payloadLength)) =
          Z.min payloadLength (Z.max 0 (Buffer.length data - offset'))).
  { rewrite length_slice by lia. rewrite add_clamped by lia. lia. }
  assert (Hlen' : Buffer.length
            match (if decide (band (data !! 1%nat) 0x80 <> 0)
                   then Some (slice data offset (offset + 4)) else None) with
            | Some key => unmask key (slice data offset' (Js.add offset' payloadLength))
            | None => slice data offset' (Js.add offset' payloadLength)
            end =
          Z.min payloadLength (Z.max 0 (Buffer.length data - offset'))).
  { destruct (decide _); [|exact Hlen].
    unfold Buffer.length at 1. rewrite length_unmask. exact Hlen. }
  split; [exact Hlen' | intros Hfit; rewrite Hlen'; lia].
Qed.

Lemma decodeFrame_payload_length_witness :
  let data := [0x81; 0x85; 0x37; 0xfa; 0x21; 0x3d; 0x7f; 0x9f; 0x4d; 0x51; 0x58] in
  exists frame,
    decodeFrame data = Normal frame /\
    Frame.payloadLength frame = 5 /\
    Buffer.toString (Frame.payloadData frame) = lit "Hello" /\
    Buffer.length (Frame.payloadData frame) = Frame.payloadLength frame.
Proof.
  intros data.
  exists {| Frame.fin := 0x80; Frame.opcode := 1; Frame.mask := 0x80;
            Frame.payloadLength := 5; Frame.offset := 6;
            Frame.maskingKey := Some [0x37; 0xfa; 0x21; 0x3d];
            Frame.payloadData := [0x48; 0x65; 0x6c; 0x6c; 0x6f] |}.
  split; [vm_compute; reflexivity |].
  split; [reflexivity |].
  split; [vm_compute; reflexivity |].
  apply (decodeFrame_payload_length data).
  - unfold is_buffer, is_byte. repeat constructor; discriminate.
  - vm_compute. discriminate.
  - vm_compute. reflexivity.
  - vm_compute. discriminate.
Defined.

(** C10. For a text whose UTF-8 encoding has [L] bytes, the encoder writes a
    frame of [2 + L] bytes: [0x81], then [L] modulo 256, then the encoding
    itself, with no extended-length bytes in between; for [L] from 128 to 255
    the length byte has its top bit, the mask bit, set. *)
Theorem encodeFrame_layout (message : jsstring) (socket : Socket) (w : World) :
  let payload := from_utf8 message in
  let L := Buffer.length payload in
  calls (sendWebSocketFrame socket message w) =
    calls w ++ [(socket, Write (encodeFrame message))] /\
  encodeFrame message = 0x81 :: L mod 256 :: payload /\
  Buffer.length (encodeFrame message) = 2 + L /\
  encodeFrame message !! 0%nat = Some 0x81 /\
  encodeFrame message !! 1%nat = Some (L mod 256) /\
  (128 <= L <= 255 ->
   exists byte1, encodeFrame message !! 1%nat = Some byte1 /\
                 Z.testbit byte1 7 = true).
Proof.
  intros payload L. rewrite encodeFrame_bytes. fold payload. fold L.
  repeat split.
  - unfold sendWebSocketFrame, socket_write. cbn [calls].
    by rewrite encodeFrame_bytes.
  - subst L. unfold Buffer.length. cbn [List.length]. lia.
  - intros HL. exists (L mod 256). split; [reflexivity |].
    rewrite Z.mod_small by lia.
    rewrite Z.testbit_true by lia. change (2 ^ 7) with 128.
    Z.div_mod_to_equations. lia.
Qed.

Lemma encodeFrame_layout_witness :
  let message := lit (String.concat EmptyString (repeat "abcdefgh"%string 16)) in
  Buffer.length (from_utf8 message) = 128 /\
  exists byte1, encodeFrame message !! 1%nat = Some byte1 /\
                Z.testbit byte1 7 = true.
Proof.
  intros message. split; [vm_compute; reflexivity |].
  apply (encodeFrame_layout message 7%nat {| calls := []; sseClients := [] |}).
  vm_compute. split; discriminate.
Defined.

(** * Further properties of the code *)

(** ** The SSE registry and the broadcast *)

Lemma fold_write_string (text : jsstring) (clients : list Socket) (w : World) :
  fold_left (fun w client => socket_write_string client text w) clients w =
    {| calls := calls w ++ deliveries clients text; sseClients := sseClients w |}.
Proof.
  revert w. induction clients as [|c clients IH]; intros [cs reg]; simpl.
  - by rewrite app_nil_r.
  - rewrite IH. simpl. by rewrite <- app_assoc.
Qed.

(** X1. A broadcast makes exactly one write of the formatted message on
    every registered socket, in the order of registration, after the calls
    made before; it makes no other call and leaves the registry as it is. *)
Theorem sendSseMessage_fan_out (message : Sse.SseMessage) (w : World) :
  sendSseMessage message w =
    {| calls := calls w ++ deliveries (sseClients w) (formatSseMessage message);
       sseClients := sseClients w |}.
Proof. unfold sendSseMessage. apply fold_write_string. Qed.

(** X2. [GET /serverside-events] opens a stream: the handler writes the
    [text/event-stream] response, does not end the socket, and registers it;
    a socket that is registered already is not registered twice. *)
Theorem handleHttpRequest_subscribes (data : Buffer) (socket : Socket) (w : World) :
  is_request data "GET" "/serverside-events" ->
  calls (handleHttpRequest data socket w) =
    calls w ++ [(socket, Write (from_utf8 sseResponse))] /\
  socket ∈ sseClients (handleHttpRequest data socket w) /\
  (socket ∈ sseClients w ->
   sseClients (handleHttpRequest data socket w) = sseClients w) /\
  (socket ∉ sseClients w ->
   sseClients (handleHttpRequest data socket w) = sseClients w ++ [socket]).
Proof.
  intros [Hm Hp]. unfold handleHttpRequest.
  destruct (decide _) as [[_ H]|_]; [rewrite Hp in H; discriminate H |].
  destruct (decide _) as [[_ H]|_]; [rewrite Hp in H; discriminate H |].
  rewrite decide_True by (split; assumption).
  unfold handleSseRequest, sseClients_add, socket_write_string, socket_write.
  cbn [calls sseClients]. fold sseResponse.
  split; [reflexivity |].
  destruct (decide (socket ∈ sseClients w)) as [Hin|Hout].
  - repeat split; [exact Hin | contradiction].
  - repeat split; [| contradiction].
    apply elem_of_app. right. by apply list_elem_of_singleton.
Qed.

Lemma handleHttpRequest_subscribes_witness :
  let data := from_utf8 (lit "GET /serverside-events HTTP/1.1" ++ CRLF ++ CRLF) in
  let w0 := {| calls := []; sseClients := [3%nat] |} in
  calls (handleHttpRequest data 7%nat w0) = [(7%nat, Write (from_utf8 sseResponse))] /\
  sseClients (handleHttpRequest data 7%nat w0) = [3%nat; 7%nat].
Proof.
  intros data w0.
  destruct (handleHttpRequest_subscribes data 7%nat w0) as (Hc & _ & _ & Hs).
  - split; vm_compute; reflexivity.
  - split; [exact Hc |]. apply Hs.
    intros [H|H]%elem_of_cons; [discriminate H | by apply elem_of_nil in H].
Defined.

(** ** What a data event can do *)

Lemma handleHttpRequest_effect (data : Buffer) (socket : Socket) (w : World) :
  effect_of socket w (handleHttpRequest data socket w).
Proof.
  unfold handleHttpRequest.
  destruct (decide _) as [_|_]; [apply effect_write_end |].
  destruct (decide _) as [_|_]; [apply effect_write |].
  destruct (decide _) as [_|_]; [apply effect_write_register | apply effect_write_end].
Qed.

Lemma handleWebSocketHandshake_effect (data : Buffer) (socket : Socket) (w : World) :
  effect_of socket w (handleWebSocketHandshake data socket w).
Proof.
  unfold handleWebSocketHandshake.
  destruct (truthy _); [apply effect_write | apply effect_none].
Qed.

Lemma handleWebSocketFrames_effect (data : Buffer) (socket : Socket) (w w' : World) :
  handleWebSocketFrames data socket w = Normal w' -> effect_of socket w w'.
Proof.
  unfold handleWebSocketFrames.
  destruct (decodeFrame data) as [frame|]; [|done].
  destruct (_ =? 1); [intros [= <-]; apply effect_write |].
  destruct (_ =? 8); intros [= <-]; [apply effect_end | apply effect_none].
Qed.

Lemma on_data_effect (data : Buffer) (socket : Socket) (w w' : World) :
  on_data data socket w = Normal w' -> effect_of socket w w'.
Proof.
  unfold on_data. destruct (classify data).
  - intros [= <-]. apply handleWebSocketHandshake_effect.
  - apply handleWebSocketFrames_effect.
  - intros [= <-]. apply handleHttpRequest_effect.
Qed.

(** X3. A data event on a socket touches no other connection: the calls it
    adds, at most two, are all on that socket; it removes no subscriber from
    the registry; and the only socket it can register is its own. *)
Theorem on_data_isolated (data : Buffer) (socket : Socket) (w w' : World) :
  on_data data socket w = Normal w' ->
  (exists added,
     calls w' = calls w ++ added /\
     Forall (fun call => call.1 = socket) added /\
     (List.length added <= 2)%nat) /\
  (forall client, client ∈ sseClients w -> client ∈ sseClients w') /\
  (forall client, client ∈ sseClients w' -> client ∈ sseClients w \/ client = socket).
Proof.
  intros Hd. apply on_data_effect in Hd.
  assert (Hadd : forall v client,
             client ∈ sseClients (sseClients_add socket v) <->
             client ∈ sseClients v \/ client = socket).
  { intros v client. unfold sseClients_add. cbn [sseClients].
    destruct (decide _) as [Hin|_].
    - split; [by left | intros [H| ->]; assumption].
    - by rewrite elem_of_app, list_elem_of_singleton. }
  destruct Hd as [|bytes| |bytes|bytes].
  - split; [exists []; by rewrite app_nil_r; repeat constructor | by auto].
  - split; [eexists; repeat split; [repeat constructor | cbn; lia] | by auto].
  - split; [eexists; repeat split; [repeat constructor | cbn; lia] | by auto].
  - split; [| by auto].
    exists [(socket, Write bytes); (socket, End)]. cbn [calls socket_end socket_write].
    rewrite <- app_assoc. repeat split; [repeat constructor | cbn; lia].
  - split; [eexists; repeat split; [repeat constructor | cbn; lia] |].
    split; intros client; rewrite Hadd; cbn [sseClients socket_write]; tauto.
Qed.

Lemma on_data_isolated_witness :
  let data := from_utf8 (lit "GET /serverside-events HTTP/1.1" ++ CRLF ++ CRLF) in
  let w0 := {| calls := [(3%nat, Write [0x0a])]; sseClients := [3%nat] |} in
  let w1 := {| calls := [(3%nat, Write [0x0a]); (7%nat, Write (from_utf8 sseResponse))];
               sseClients := [3%nat; 7%nat] |} in
  on_data data 7%nat w0 = Normal w1 /\
  (exists added,
     calls w1 = calls w0 ++ added /\
     Forall (fun call => call.1 = 7%nat) added /\
     (List.length added <= 2)%nat) /\
  (forall client, client ∈ sseClients w0 -> client ∈ sseClients w1) /\
  (forall client, client ∈ sseClients w1 -> client ∈ sseClients w0 \/ client = 7%nat).
Proof.
  intros data w0 w1.
  assert (Hd : on_data data 7%nat w0 = Normal w1) by (vm_compute; reflexivity).
  split; [exact Hd |].
  exact (on_data_isolated data 7%nat w0 w1 Hd).
Defined.

(** X4. The registry never holds a socket twice: no data event, no [end]
    or [close] event, no broadcast and no timer tick breaks that. *)
Theorem sseClients_NoDup (w : World) :
  NoDup (sseClients w) ->
  (forall data socket w', on_data data socket w = Normal w' -> NoDup (sseClients w')) /\
  (forall socket, NoDup (sseClients (on_end socket w))) /\
  (forall socket, NoDup (sseClients (on_close socket w))) /\
  (forall message, NoDup (sseClients (sendSseMessage message w))) /\
  (forall iso1 iso2 now, NoDup (sseClients (tick iso1 iso2 now w))).
Proof.
  intros Hnd. repeat split.
  - intros data socket w' Hd. apply on_data_effect in Hd.
    destruct Hd as [|bytes| |bytes|bytes]; try exact Hnd.
    unfold sseClients_add. cbn [sseClients socket_write].
    destruct (decide _) as [|Hout]; [exact Hnd |].
    apply NoDup_app. repeat split; [exact Hnd | | apply NoDup_singleton].
    intros x Hx ->%list_elem_of_singleton. contradiction.
  - intros socket. by apply NoDup_filter.
  - intros socket. by apply NoDup_filter.
  - intros message. unfold sendSseMessage. by rewrite fold_write_string.
  - intros iso1 iso2 now. unfold tick, sendSseMessage.
    by rewrite !fold_write_string.
Qed.

Lemma sseClients_NoDup_witness :
  let w0 := {| calls := []; sseClients := [3%nat; 7%nat] |} in
  NoDup (sseClients (on_close 3%nat w0)) /\
  NoDup (sseClients (tick (lit "2024-01-01T00:00:00.000Z")
                          (lit "2024-01-01T00:00:00.000Z") 1704067200000 w0)).
Proof.
  intros w0.
  assert (Hnd : NoDup (sseClients w0)).
  { apply NoDup_cons. split; [|apply NoDup_singleton].
    intros H%list_elem_of_singleton. discriminate H. }
  destruct (sseClients_NoDup w0 Hnd) as (_ & _ & Hclose & _ & Htick).
  split; [apply Hclose | apply Htick].
Defined.

(** X5. Once the [close] (or [end]) event of a socket has run, the socket
    is out of the registry, every other subscriber is still in it in the
    same order, and the next broadcast writes to each of them and makes no
    call on the closed socket. *)
Theorem on_close_unsubscribes (socket : Socket) (message : Sse.SseMessage) (w : World) :
  on_end socket w = on_close socket w /\
  (socket ∉ sseClients (on_close socket w)) /\
  (forall client, client ≠ socket ->
     (client ∈ sseClients (on_close socket w) <-> client ∈ sseClients w)) /\
  (exists remaining,
     calls (sendSseMessage message (on_close socket w)) =
       calls w ++ deliveries remaining (formatSseMessage message) /\
     remaining = filter (fun client => client ≠ socket) (sseClients w) /\
     Forall (fun call => call.1 ≠ socket)
            (deliveries remaining (formatSseMessage message))).
Proof.
  split; [reflexivity |].
  unfold on_close, sseClients_delete. cbn [sseClients].
  split; [|split].
  - rewrite list_elem_of_filter. tauto.
  - intros client Hne. rewrite list_elem_of_filter. tauto.
  - eexists. split; [|split; [reflexivity |]].
    + unfold sendSseMessage. rewrite fold_write_string. reflexivity.
    + unfold deliveries. apply Forall_fmap, Forall_forall.
      intros client Hin. by apply list_elem_of_filter in Hin as [Hne _].
Qed.

Lemma Number_toString_cons (n : Z) : exists c s, Number_toString n = c :: s.
Proof.
  unfold Number_toString, NilZero.string_of_int, NilZero.string_of_uint.
  destruct (Z.to_int n) as [d|d]; [destruct d |]; cbn; by eexists _, _.
Qed.

Lemma tick_closed_form (iso1 iso2 : jsstring) (now : Z) (w : World) :
  tick iso1 iso2 now w =
    {| calls :=
         calls w ++
         deliveries (sseClients w)
           (lit "event: ping" ++ NL ++ lit "data: Ping event at " ++ iso1 ++ NL ++ NL) ++
         deliveries (sseClients w)
           (lit "data: Server time: " ++ iso2 ++ NL ++ NL) ++
         deliveries (sseClients w)
           (lit "id: " ++ Number_toString now ++ NL ++ NL) ++
         deliveries (sseClients w)
           (lit "retry: 3000" ++ NL ++ NL);
       sseClients := sseClients w |}.
Proof.
  assert (Hping : formatSseMessage
                    {| Sse.event := Some (lit "ping");
                       Sse.data := Some (lit "Ping event at " ++ iso1);
                       Sse.id := None; Sse.retry := None |} =
                  lit "event: ping" ++ NL ++ lit "data: Ping event at " ++ iso1 ++ NL ++ NL).
  { unfold formatSseMessage, field_line. cbn.
    rewrite ?app_nil_r, <- ?app_assoc. reflexivity. }
  assert (Htime : formatSseMessage
                    {| Sse.event := None;
                       Sse.data := Some (lit "Server time: " ++ iso2);
                       Sse.id := None; Sse.retry := None |} =
                  lit "data: Server time: " ++ iso2 ++ NL ++ NL).
  { unfold formatSseMessage, field_line. cbn.
    rewrite ?app_nil_r, <- ?app_assoc. reflexivity. }
  assert (Hid : formatSseMessage
                  {| Sse.event := None; Sse.data := None;
                     Sse.id := Some (Number_toString now); Sse.retry := None |} =
                lit "id: " ++ Number_toString now ++ NL ++ NL).
  { destruct (Number_toString_cons now) as (c & s & ->).
    unfold formatSseMessage, field_line. cbn.
    rewrite ?app_nil_r, <- ?app_assoc. reflexivity. }
  assert (Hretry : formatSseMessage
                     {| Sse.event := None; Sse.data := None;
                        Sse.id := None; Sse.retry := Some (lit "3000") |} =
                   lit "retry: 3000" ++ NL ++ NL) by reflexivity.
  unfold tick, sendSseMessage. rewrite !fold_write_string.
  cbn [calls sseClients]. rewrite Hping, Htime, Hid, Hretry, <- !app_assoc.
  reflexivity.
Qed.

(** X6. A timer tick delivers four separate events, in this order, each to
    every subscriber before the next one starts: the [ping] event with its
    data line, the server time, the id-only event and the retry-only event.
    With no subscriber it makes no call. *)
Theorem tick_deliveries (iso1 iso2 : jsstring) (now : Z) (w : World) :
  tick iso1 iso2 now w =
    {| calls :=
         calls w ++
         deliveries (sseClients w)
           (lit "event: ping" ++ NL ++ lit "data: Ping event at " ++ iso1 ++ NL ++ NL) ++
         deliveries (sseClients w)
           (lit "data: Server time: " ++ iso2 ++ NL ++ NL) ++
         deliveries (sseClients w)
           (lit "id: " ++ Number_toString now ++ NL ++ NL) ++
         deliveries (sseClients w)
           (lit "retry: 3000" ++ NL ++ NL);
       sseClients := sseClients w |} /\
  (sseClients w = [] -> tick iso1 iso2 now w = w).
Proof.
  rewrite tick_closed_form. split; [reflexivity |].
  intros Hnil. destruct w as [cs reg]. cbn [sseClients calls] in *. subst reg.
  cbn [deliveries map]. rewrite !app_nil_r. reflexivity.
Qed.

Lemma tick_deliveries_witness :
  let w0 := {| calls := [(7%nat, End)]; sseClients := [] |} in
  tick (lit "2024-01-01T00:00:00.000Z") (lit "2024-01-01T00:00:00.001Z")
       1704067200001 w0 = w0.
Proof.
  intros w0. apply (tick_deliveries _ _ _ w0). reflexivity.
Defined.

(** ** More on the frame codec *)

Lemma land_low7 (x : Z) :
  0 <= x < 128 -> Z.land x 0x7f = x /\ Z.land x 0x80 = 0.
Proof.
  intros Hx. split.
  - change 0x7f with (Z.ones 7). rewrite Z.land_ones by lia.
    apply Z.mod_small. lia.
  - apply Z.bits_inj'. intros n Hn. rewrite Z.land_spec, Z.bits_0.
    change 0x80 with (2 ^ 7). rewrite Z.pow2_bits_eqb by lia.
    destruct (Z.eqb_spec 7 n) as [<-|]; [|apply andb_false_r].
    rewrite andb_true_r.
    rewrite <- (Z.mod_small x (2 ^ 7)) by lia.
    apply Z.mod_pow2_bits_high. lia.
Qed.

Lemma land_high7 (x : Z) :
  0 <= x < 128 -> Z.land (0x80 + x) 0x7f = x /\ Z.land (0x80 + x) 0x80 = 0x80.
Proof.
  intros Hx. split.
  - change 0x7f with (Z.ones 7). rewrite Z.land_ones by lia.
    change (2 ^ 7) with 128. Z.div_mod_to_equations. lia.
  - apply land_bit7. rewrite Z.testbit_true by lia.
    change (2 ^ 7) with 128. Z.div_mod_to_equations. lia.
Qed.

(** The slice that starts after [pre] and has the length of [mid]. *)
Lemma slice_middle (pre mid post : Buffer) (start end_ : Z) :
  start = Buffer.length pre ->
  end_ = Buffer.length pre + Buffer.length mid ->
  slice (pre ++ mid ++ post) start end_ = mid.
Proof.
  unfold slice, Buffer.length. intros -> ->.
  rewrite !length_app.
  rewrite !Z.min_l by lia.
  replace (Z.to_nat (Z.of_nat (List.length pre))) with (List.length pre) by lia.
  rewrite drop_app_length.
  destruct (Z.ltb_spec (Z.of_nat (List.length pre))
              (Z.of_nat (List.length pre) + Z.of_nat (List.length mid))) as [Hlt|Hge].
  - apply take_app_length'. lia.
  - destruct mid; [reflexivity | simpl in Hge; lia].
Qed.

Lemma unmask_cancel (key payload : Buffer) :
  is_buffer payload -> unmask key (unmask key payload) = payload.
Proof.
  intros Hb. apply list_eq. intros i. unfold unmask.
  rewrite !list_lookup_imap.
  destruct (payload !! i) as [byte|] eqn:Hi; [|done].
  simpl. f_equal. apply uint8_lxor_twice.
  eapply Forall_lookup_1; [exact Hb | exact Hi].
Qed.

(** X7. Decoding undoes encoding for short texts: when the UTF-8 encoding of
    a text has at most 125 bytes, the decoder reads the frame the encoder
    built as a final, unmasked text frame whose payload is that encoding. *)
Theorem decodeFrame_encodeFrame (message : jsstring) :
  Buffer.length (from_utf8 message) <= 125 ->
  decodeFrame (encodeFrame message) =
    Normal {| Frame.fin := 0x80; Frame.opcode := 1; Frame.mask := 0;
              Frame.payloadLength := Buffer.length (from_utf8 message);
              Frame.offset := 2; Frame.maskingKey := None;
              Frame.payloadData := from_utf8 message |}.
Proof.
  intros HL. rewrite encodeFrame_bytes.
  set (payload := from_utf8 message) in *.
  assert (H0 : 0 <= Buffer.length payload) by (unfold Buffer.length; lia).
  rewrite Z.mod_small by lia.
  destruct (land_low7 (Buffer.length payload)) as [H7 H8]; [lia |].
  unfold decodeFrame, readLength, band.
  cbn [lookup list_lookup default from_option id].
  rewrite H7, H8.
  destruct (Z.eqb_spec (Buffer.length payload) 126) as [|_]; [lia |].
  destruct (Z.eqb_spec (Buffer.length payload) 127) as [|_]; [lia |].
  rewrite decide_False by (intros H; by apply H).
  rewrite Z.add_0_r. unfold Js.add. rewrite to_double_small by lia.
  pose proof (slice_middle [0x81; Buffer.length payload] payload [] 2
                (2 + Buffer.length payload) eq_refl eq_refl) as Hs.
  rewrite app_nil_r in Hs. cbn [app] in Hs. rewrite Hs.
  reflexivity.
Qed.

Lemma decodeFrame_encodeFrame_witness :
  decodeFrame (encodeFrame (lit "ping?")) =
    Normal {| Frame.fin := 0x80; Frame.opcode := 1; Frame.mask := 0;
              Frame.payloadLength := 5;
              Frame.offset := 2; Frame.maskingKey := None;
              Frame.payloadData := from_utf8 (lit "ping?") |}.
Proof.
  apply (decodeFrame_encodeFrame (lit "ping?")). vm_compute. discriminate.
Defined.

Lemma be_bytes_fold (n : nat) (v acc : Z) :
  0 <= v ->
  fold_left (fun acc b => acc * 256 + b) (Crypto.be_bytes n v) acc =
    acc * 256 ^ Z.of_nat n + v mod 256 ^ Z.of_nat n.
Proof.
  intros Hv. revert acc. induction n as [|k IH]; intros acc.
  - cbn [Crypto.be_bytes fold_left]. change (256 ^ Z.of_nat 0) with 1.
    rewrite Z.mod_1_r. lia.
  - cbn [Crypto.be_bytes fold_left]. rewrite IH.
    change 0xFF with (Z.ones 8). rewrite Z.land_ones by lia.
    rewrite Z.shiftr_div_pow2 by lia.
    replace (2 ^ (8 * Z.of_nat k)) with (256 ^ Z.of_nat k)
      by (change 256 with (2 ^ 8); rewrite <- Z.pow_mul_r by lia; reflexivity).
    change (2 ^ 8) with 256.
    rewrite Nat2Z.inj_succ, Z.pow_succ_r by lia.
    rewrite (Z.mul_comm 256 (256 ^ Z.of_nat k)).
    rewrite (Z.rem_mul_r v (256 ^ Z.of_nat k) 256) by lia.
    ring.
Qed.

Lemma be_value_be_bytes (n : nat) (v : Z) :
  0 <= v < 256 ^ Z.of_nat n -> be_value (Crypto.be_bytes n v) = v.
Proof.
  intros Hv. unfold be_value. rewrite be_bytes_fold by lia.
  rewrite Z.mod_small by lia. lia.
Qed.

Lemma length_be_bytes (n : nat) (v : Z) : List.length (Crypto.be_bytes n v) = n.
Proof. induction n as [|k IH]; cbn [Crypto.be_bytes List.length]; congruence. Qed.

(** The decoder after the length field of a masked frame; [post] is what
    the buffer holds after the declared payload. *)
Lemma decodeFrame_masked (byte0 byte1 L : Z) (ext key masked post : Buffer) :
  Z.land byte1 0x80 = 0x80 ->
  readLength (byte0 :: byte1 :: ext ++ key ++ masked ++ post) =
    Normal (L, 2 + Buffer.length ext) ->
  List.length key = 4%nat ->
  Buffer.length masked = L ->
  L <= MAX_LENGTH - 14 ->
  Buffer.length ext <= 8 ->
  decodeFrame (byte0 :: byte1 :: ext ++ key ++ masked ++ post) =
    Normal {| Frame.fin := Z.land byte0 0x80; Frame.opcode := Z.land byte0 0x0f;
              Frame.mask := 0x80; Frame.payloadLength := L;
              Frame.offset := 2 + Buffer.length ext + 4;
              Frame.maskingKey := Some key;
              Frame.payloadData := unmask key masked |}.
Proof.
  intros Hmask Hread Hkey Hlen HL Hext. unfold decodeFrame. rewrite Hread.
  unfold band. cbn [lookup list_lookup default from_option id]. rewrite Hmask.
  rewrite !decide_True by discriminate.
  assert (H0 : 0 <= Buffer.length ext) by (unfold Buffer.length; lia).
  assert (H1 : 0 <= L) by (subst L; unfold Buffer.length; lia).
  unfold Js.add. rewrite to_double_small by (unfold MAX_LENGTH in HL; lia).
  pose proof (slice_middle (byte0 :: byte1 :: ext) key (masked ++ post)
                (2 + Buffer.length ext) (2 + Buffer.length ext + 4)) as Hk.
  cbn [app] in Hk. rewrite Hk; cycle 1.
  { unfold Buffer.length. cbn [List.length]. lia. }
  { unfold Buffer.length. cbn [List.length]. lia. }
  pose proof (slice_middle (byte0 :: byte1 :: ext ++ key) masked post
                (2 + Buffer.length ext + 4) (2 + Buffer.length ext + 4 + L)) as Hp.
  cbn [app] in Hp. rewrite <- app_assoc in Hp.
  rewrite Hp; cycle 1.
  { unfold Buffer.length. cbn [List.length]. rewrite length_app. lia. }
  { unfold Buffer.length in *. cbn [List.length]. rewrite length_app. lia. }
  reflexivity.
Qed.

(** A masked frame, decoded; [post] is what follows it in the buffer. *)
Lemma clientFrame_decoded_post (byte0 : Z) (key payload post : Buffer) :
  is_buffer payload ->
  List.length key = 4%nat ->
  Buffer.length payload <= MAX_LENGTH - 14 ->
  decodeFrame (clientFrame byte0 key payload ++ post) =
    Normal {| Frame.fin := Z.land byte0 0x80; Frame.opcode := Z.land byte0 0x0f;
              Frame.mask := 0x80;
              Frame.payloadLength := Buffer.length payload;
              Frame.offset := clientOffset (Buffer.length payload);
              Frame.maskingKey := Some key;
              Frame.payloadData := payload |}.
Proof.
  intros Hb Hkey HL. unfold clientFrame, clientOffset.
  set (L := Buffer.length payload) in *.
  assert (H0 : 0 <= L) by (unfold L, Buffer.length; lia).
  assert (Hm : Buffer.length (unmask key payload) = L)
    by (unfold Buffer.length; by rewrite length_unmask).
  rewrite <- (unmask_cancel key payload Hb) at 2.
  destruct (Z.leb_spec L 125) as [H125|H125].
  - destruct (land_high7 L) as [H7 H8]; [lia |].
    cbn [app]. rewrite <- !app_assoc.
    apply (decodeFrame_masked byte0 (0x80 + L) L [] key _ post); try done.
    unfold readLength, band. cbn [lookup list_lookup default from_option id app].
    rewrite H7.
    destruct (Z.eqb_spec L 126) as [|_]; [lia |].
    destruct (Z.eqb_spec L 127) as [|_]; [lia |]. reflexivity.
  - destruct (Z.leb_spec L 0xFFFF) as [H16|H16].
    + pose proof (length_be_bytes 2 L) as Hn.
      pose proof (be_value_be_bytes 2 L) as Hv.
      destruct (Crypto.be_bytes 2 L) as [|e0 [|e1 [|? ?]]]; try discriminate Hn.
      cbn [app]. rewrite <- !app_assoc.
      apply (decodeFrame_masked byte0 0xFE L [e0; e1] key _ post); try done.
      unfold readLength, readUInt16BE, band.
      cbn [lookup list_lookup default from_option id app].
      change (Z.land 0xFE 0x7f =? 126) with true. cbn match.
      do 2 f_equal. unfold be_value in Hv. cbn [fold_left] in Hv.
      change (256 ^ Z.of_nat 2) with 65536 in Hv. lia.
    + pose proof (length_be_bytes 8 L) as Hn.
      pose proof (be_value_be_bytes 8 L) as Hv.
      destruct (Crypto.be_bytes 8 L)
        as [|e0 [|e1 [|e2 [|e3 [|e4 [|e5 [|e6 [|e7 [|? ?]]]]]]]]];
        try discriminate Hn.
      cbn [app]. rewrite <- !app_assoc.
      apply (decodeFrame_masked byte0 0xFF L [e0; e1; e2; e3; e4; e5; e6; e7] key _ post);
        try done.
      unfold readLength, readBigUInt64BE, band.
      cbn [lookup list_lookup default from_option id app].
      change (Z.land 0xFF 0x7f =? 126) with false.
      change (Z.land 0xFF 0x7f =? 127) with true. cbn match.
      change (Z.to_nat 2) with 2%nat. cbn [drop skipn take firstn].
      rewrite take_0. do 2 f_equal. unfold Number_of_BigInt.
      change (256 ^ Z.of_nat 8) with (2 ^ 64) in Hv. unfold MAX_LENGTH in HL.
      rewrite Hv by lia. apply to_double_small. lia.
Qed.

Lemma clientFrame_decoded (byte0 : Z) (key payload : Buffer) :
  is_buffer payload ->
  List.length key = 4%nat ->
  Buffer.length payload <= MAX_LENGTH - 14 ->
  decodeFrame (clientFrame byte0 key payload) =
    Normal {| Frame.fin := Z.land byte0 0x80; Frame.opcode := Z.land byte0 0x0f;
              Frame.mask := 0x80;
              Frame.payloadLength := Buffer.length payload;
              Frame.offset := clientOffset (Buffer.length payload);
              Frame.maskingKey := Some key;
              Frame.payloadData := payload |}.
Proof.
  intros Hb Hkey HL.
  pose proof (clientFrame_decoded_post byte0 key payload [] Hb Hkey HL) as H.
  by rewrite app_nil_r in H.
Qed.

(** X8. The decoder reads a masked frame of a client back in each of the
    three length forms: for a key of four bytes and a payload of bytes, it
    finds the opcode and the FIN bit in the first byte, the length of the
    payload, the key, and the payload itself, unmasked. *)
Theorem decodeFrame_clientFrame (byte0 : Z) (key payload : Buffer) :
  is_buffer payload ->
  List.length key = 4%nat ->
  Buffer.length payload <= MAX_LENGTH - 14 ->
  decodeFrame (clientFrame byte0 key payload) =
    Normal {| Frame.fin := Z.land byte0 0x80; Frame.opcode := Z.land byte0 0x0f;
              Frame.mask := 0x80;
              Frame.payloadLength := Buffer.length payload;
              Frame.offset := clientOffset (Buffer.length payload);
              Frame.maskingKey := Some key;
              Frame.payloadData := payload |}.
Proof. intros Hb Hkey HL. by apply clientFrame_decoded. Qed.


Lemma decodeFrame_clientFrame_witness :
  clientFrame 0x81 [0x37; 0xfa; 0x21; 0x3d] (from_utf8 (lit "Hello")) =
    [0x81; 0x85; 0x37; 0xfa; 0x21; 0x3d; 0x7f; 0x9f; 0x4d; 0x51; 0x58] /\
  decodeFrame (clientFrame 0x81 [0x37; 0xfa; 0x21; 0x3d] (from_utf8 (lit "Hello"))) =
    Normal {| Frame.fin := 0x80; Frame.opcode := 1; Frame.mask := 0x80;
              Frame.payloadLength := 5; Frame.offset := 6;
              Frame.maskingKey := Some [0x37; 0xfa; 0x21; 0x3d];
              Frame.payloadData := from_utf8 (lit "Hello") |}.
Proof.
  split; [vm_compute; reflexivity |].
  apply (decodeFrame_clientFrame 0x81 [0x37; 0xfa; 0x21; 0x3d] (from_utf8 (lit "Hello"))).
  - unfold is_buffer, is_byte. vm_compute. repeat constructor; discriminate.
  - reflexivity.
  - vm_compute. discriminate.
Defined.

Lemma readLength_throws (data : Buffer) (e : Error) :
  readLength data = Throw e <-> e = RangeError /\ truncated_length data.
Proof.
  unfold truncated_length, lengthCode, readLength, readUInt16BE, readBigUInt64BE,
    Buffer.length.
  change (Z.to_nat 2) with 2%nat. change (Z.to_nat (2 + 1)) with 3%nat.
  change (Z.to_nat (2 + 7)) with 9%nat.
  destruct (Z.eqb_spec (band (data !! 1%nat) 0x7f) 126) as [->|H126].
  - destruct (data !! 2%nat) as [first|] eqn:H2;
      [destruct (data !! 3%nat) as [last|] eqn:H3 |].
    + apply lookup_lt_Some in H3. split; [done | intros [_ [[_ H]|[H _]]]; lia].
    + apply lookup_ge_None_1 in H3. split; [intros [= <-] | by intros [-> _]].
      split; [done | left; lia].
    + apply lookup_ge_None_1 in H2. split; [intros [= <-] | by intros [-> _]].
      split; [done | left; lia].
  - destruct (Z.eqb_spec (band (data !! 1%nat) 0x7f) 127) as [->|H127].
    + destruct (data !! 2%nat) as [first|] eqn:H2;
        [destruct (data !! 9%nat) as [last|] eqn:H9 |].
      * apply lookup_lt_Some in H9. split; [done | intros [_ [[H _]|[_ H]]]; lia].
      * apply lookup_ge_None_1 in H9. split; [intros [= <-] | by intros [-> _]].
        split; [done | right; lia].
      * apply lookup_ge_None_1 in H2. split; [intros [= <-] | by intros [-> _]].
        split; [done | right; lia].
    + split; [done | intros [_ [[H _]|[H _]]]; contradiction].
Qed.

(** X9. The data listener throws on exactly one kind of buffer: one that is
    dispatched to the frame decoder and whose extended length is cut short
    (length code 126 with fewer than 4 bytes, or 127 with fewer than 10).
    What it throws is a [RangeError]; every other buffer is handled. *)
Theorem on_data_throws (data : Buffer) (socket : Socket) (w : World) (e : Error) :
  on_data data socket w = Throw e <->
  e = RangeError /\ classify data = WebSocketFrame /\ truncated_length data.
Proof.
  unfold on_data. destruct (classify data).
  - split; [done | by intros (_ & ? & _)].
  - unfold handleWebSocketFrames, decodeFrame.
    pose proof (readLength_throws data e) as Hr.
    destruct (readLength data) as [[payloadLength offset]|e'].
    + assert (Hno : ~ (e = RangeError /\ truncated_length data))
        by (intros H; apply Hr in H; discriminate H).
      destruct (_ =? 1); [split; [done | intros (? & _ & ?); tauto] |].
      destruct (_ =? 8); split; try done; intros (? & _ & ?); tauto.
    + split.
      * intros [= ->]. destruct (proj1 Hr eq_refl) as [-> Ht]. done.
      * intros (-> & _ & Ht). f_equal.
        assert (Throw e' = Throw RangeError :> Completion (Z * Z)) as [= ->]
          by (by apply Hr). reflexivity.
  - split; [done | by intros (_ & ? & _)].
Qed.

Lemma on_data_throws_witness :
  on_data [0x81; 0x7e; 0x00] 7%nat {| calls := []; sseClients := [] |} =
    Throw RangeError.
Proof.
  apply on_data_throws. split; [reflexivity |].
  split; [vm_compute; reflexivity |].
  left. split; [vm_compute; reflexivity | vm_compute; reflexivity].
Defined.

(** ** Echo *)

Lemma ascii_from_utf8 (s : jsstring) : is_ascii s -> from_utf8 s = s.
Proof.
  unfold from_utf8. induction 1 as [|u s Hu _ IH]; [reflexivity |].
  cbn [utf8_encode_go]. unfold is_high_surrogate, is_low_surrogate.
  destruct (Z.leb_spec 0xD800 u); [lia |].
  destruct (Z.leb_spec 0xDC00 u); [lia |]. cbn [andb].
  unfold utf8_of_code_point. destruct (Z.ltb_spec u 0x80); [|lia].
  rewrite IH. reflexivity.
Qed.

Lemma ascii_toString (b : Buffer) : is_ascii b -> Buffer.toString b = b.
Proof.
  unfold Buffer.toString. induction 1 as [|u s Hu _ IH]; [reflexivity |].
  cbn [utf8_decode_go]. unfold decode_lead.
  destruct (Z.leb_spec u 0x7F); [|lia]. rewrite IH. reflexivity.
Qed.

Lemma ascii_is_buffer (s : jsstring) : is_ascii s -> is_buffer s.
Proof.
  intros H. eapply Forall_impl; [exact H |].
  intros c Hc. cbv beta in Hc. unfold is_byte. lia.
Qed.

(** X10. What the server does with a masked frame of a client depends on
    the low nibble of its first byte only: a text frame (1) is answered by
    one frame carrying the payload decoded as UTF-8 and encoded again; a
    close frame (8) by ending the socket, with no close frame sent back;
    any other frame (binary, ping, pong, continuation) by nothing at all. *)
Theorem handleWebSocketFrames_clientFrame
    (byte0 : Z) (key payload : Buffer) (socket : Socket) (w : World) :
  is_buffer payload ->
  List.length key = 4%nat ->
  Buffer.length payload <= MAX_LENGTH - 14 ->
  handleWebSocketFrames (clientFrame byte0 key payload) socket w =
    Normal (if Z.land byte0 0x0f =? 1
            then socket_write socket (encodeFrame (Buffer.toString payload)) w
            else if Z.land byte0 0x0f =? 8 then socket_end socket w
            else w).
Proof.
  intros Hb Hkey HL. unfold handleWebSocketFrames.
  rewrite clientFrame_decoded by assumption. cbn [Frame.opcode Frame.payloadData].
  destruct (_ =? 1); [reflexivity |]. destruct (_ =? 8); reflexivity.
Qed.

Lemma handleWebSocketFrames_clientFrame_witness :
  let w0 := {| calls := []; sseClients := [] |} in
  handleWebSocketFrames (clientFrame 0x89 [0x37; 0xfa; 0x21; 0x3d] [0x01; 0x02])
    7%nat w0 = Normal w0.
Proof.
  intros w0.
  apply (handleWebSocketFrames_clientFrame 0x89 [0x37; 0xfa; 0x21; 0x3d] [0x01; 0x02] 7%nat w0).
  - unfold is_buffer, is_byte. repeat constructor; discriminate.
  - reflexivity.
  - vm_compute. discriminate.
Defined.

(** X11. Echo: a masked text frame that carries an ASCII text is answered
    with the frame the encoder builds for that same text. *)
Theorem echo_ascii (key : Buffer) (text : jsstring) (socket : Socket) (w : World) :
  is_ascii text ->
  List.length key = 4%nat ->
  Buffer.length (from_utf8 text) <= MAX_LENGTH - 14 ->
  handleWebSocketFrames (clientFrame 0x81 key (from_utf8 text)) socket w =
    Normal (sendWebSocketFrame socket text w).
Proof.
  intros Ha Hkey HL. unfold handleWebSocketFrames.
  rewrite clientFrame_decoded; [| rewrite ascii_from_utf8 by done;
                                  by apply ascii_is_buffer | done | done].
  cbn [Frame.opcode Frame.payloadData].
  change (Z.land 0x81 0x0f =? 1) with true. cbn match.
  rewrite (ascii_from_utf8 text Ha), (ascii_toString text Ha). reflexivity.
Qed.

Lemma echo_ascii_witness :
  let w0 := {| calls := []; sseClients := [] |} in
  calls (sendWebSocketFrame 7%nat (lit "Hello") w0) =
    [(7%nat, Write [0x81; 0x05; 0x48; 0x65; 0x6c; 0x6c; 0x6f])] /\
  handleWebSocketFrames
    [0x81; 0x85; 0x37; 0xfa; 0x21; 0x3d; 0x7f; 0x9f; 0x4d; 0x51; 0x58] 7%nat w0 =
    Normal (sendWebSocketFrame 7%nat (lit "Hello") w0).
Proof.
  intros w0. split; [vm_compute; reflexivity |].
  apply (echo_ascii [0x37; 0xfa; 0x21; 0x3d] (lit "Hello") 7%nat w0).
  - unfold is_ascii. repeat constructor; discriminate.
  - reflexivity.
  - vm_compute. discriminate.
Defined.

(** ** The encoder past 125 bytes *)

(** X12. The encoder has no extended-length form, and the decoder shows what
    that costs: the frame built for a text whose encoding has 128 to 253
    bytes is read back as a masked frame that declares 128 bytes fewer, with
    the first four bytes of the text taken for the masking key and the bytes
    after them XOR-ed with it. *)
Theorem decodeFrame_encodeFrame_long (message : jsstring) :
  let payload := from_utf8 message in
  let L := Buffer.length payload in
  128 <= L <= 253 ->
  decodeFrame (encodeFrame message) =
    Normal {| Frame.fin := 0x80; Frame.opcode := 1; Frame.mask := 0x80;
              Frame.payloadLength := L - 128; Frame.offset := 6;
              Frame.maskingKey := Some (take 4 payload);
              Frame.payloadData :=
                unmask (take 4 payload)
                       (take (Z.to_nat (L - 128)) (drop 4 payload)) |}.
Proof.
  intros payload L HL. rewrite encodeFrame_bytes. fold payload. fold L.
  rewrite Z.mod_small by lia.
  set (key := take 4 payload).
  set (masked := take (Z.to_nat (L - 128)) (drop 4 payload)).
  set (post := drop (Z.to_nat (L - 128)) (drop 4 payload)).
  assert (Hlen : List.length payload = Z.to_nat L)
    by (unfold L, Buffer.length; lia).
  replace (0x81 :: L :: payload) with (0x81 :: L :: [] ++ key ++ masked ++ post)
    by (unfold key, masked, post; cbn [app]; by rewrite !take_drop).
  destruct (land_high7 (L - 128)) as [H7 H8]; [lia |].
  replace (0x80 + (L - 128)) with L in H7, H8 by lia.
  rewrite (decodeFrame_masked 0x81 L (L - 128) [] key masked post).
  - reflexivity.
  - exact H8.
  - unfold readLength, band. cbn [lookup list_lookup default from_option id app].
    rewrite H7.
    destruct (Z.eqb_spec (L - 128) 126) as [|_]; [lia |].
    destruct (Z.eqb_spec (L - 128) 127) as [|_]; [lia |]. reflexivity.
  - unfold key. rewrite length_take. lia.
  - unfold masked, Buffer.length. rewrite length_take, length_drop. lia.
  - unfold MAX_LENGTH. lia.
  - vm_compute. discriminate.
Qed.

Lemma decodeFrame_encodeFrame_long_witness :
  let message := lit (String.concat EmptyString (repeat "abcdefgh"%string 16)) in
  exists frame,
    decodeFrame (encodeFrame message) = Normal frame /\
    Frame.payloadLength frame = 0 /\
    Frame.maskingKey frame = Some (from_utf8 (lit "abcd")) /\
    Frame.payloadData frame = [].
Proof.
  intros message. eexists. split.
  - apply (decodeFrame_encodeFrame_long message). vm_compute.
    split; discriminate.
  - split; [vm_compute; reflexivity |].
    split; vm_compute; reflexivity.
Defined.

(** ** Handshake: the key and the accept value *)

Lemma split_go_no_sep (sep cur s : jsstring) :
  includes s sep = false -> split_go sep O cur s = [rev cur ++ s].
Proof.
  revert cur. induction s as [|c s IH]; intros cur Hinc.
  - cbn [split_go]. by rewrite app_nil_r.
  - cbn [includes] in Hinc. apply orb_false_iff in Hinc as [Hs Hinc].
    cbn [split_go]. rewrite Hs, IH by exact Hinc.
    cbn [rev]. by rewrite <- app_assoc.
Qed.

Lemma split_no_sep (s sep : jsstring) : ~ contains s sep -> split s sep = [s].
Proof.
  intros Hc. unfold split. apply split_go_no_sep.
  destruct (includes s sep) eqn:Hi; [|reflexivity].
  by apply includes_true in Hi.
Qed.

Lemma split_key_header (value : jsstring) :
  split (lit "Sec-WebSocket-Key: " ++ value) (lit ": ") =
    lit "Sec-WebSocket-Key" :: split value (lit ": ").
Proof. vm_compute. reflexivity. Qed.

(** X13. The key of a handshake is what stands between the first and the
    second [: ] of the first line that starts with [Sec-WebSocket-Key].  For
    a line [Sec-WebSocket-Key: <key>] with a non-empty key free of [: ], the
    handler writes the 101 response with the accept value of that key and
    does not end the socket.  A line that starts with [Sec-WebSocket-Key] but
    has no [: ] at all gets no response. *)
Theorem handleWebSocketHandshake_key (data : Buffer) (socket : Socket) (w : World) :
  (forall key,
     keyHeader data = Some (lit "Sec-WebSocket-Key: " ++ key) ->
     key <> [] ->
     ~ contains key (lit ": ") ->
     handleWebSocketHandshake data socket w =
       socket_write_string socket (handshakeResponse (generateAcceptValue key)) w) /\
  (forall header,
     keyHeader data = Some header ->
     ~ contains header (lit ": ") ->
     handleWebSocketHandshake data socket w = w).
Proof.
  unfold handleWebSocketHandshake, handshakeKey. split.
  - intros key -> Hne Hc.
    rewrite split_key_header, (split_no_sep key) by exact Hc.
    cbn [lookup list_lookup].
    destruct key as [|c key]; [contradiction |]. reflexivity.
  - intros header -> Hc. by rewrite (split_no_sep header) by exact Hc.
Qed.

Lemma handleWebSocketHandshake_key_witness :
  let data := from_utf8 (lit "GET /chat HTTP/1.1" ++ CRLF ++
                         lit "Host: server.example.com" ++ CRLF ++
                         lit "Upgrade: websocket" ++ CRLF ++
                         lit "Connection: Upgrade" ++ CRLF ++
                         lit "Sec-WebSocket-Key: dGhlIHNhbXBsZSBub25jZQ==" ++ CRLF ++
                         lit "Sec-WebSocket-Version: 13" ++ CRLF ++ CRLF) in
  let short := from_utf8 (lit "GET /chat HTTP/1.1" ++ CRLF ++
                          lit "Sec-WebSocket-Key:dGhlIHNhbXBsZSBub25jZQ==" ++ CRLF ++ CRLF) in
  let w0 := {| calls := []; sseClients := [] |} in
  handleWebSocketHandshake data 7%nat w0 =
    socket_write_string 7%nat
      (handshakeResponse (lit "s3pPLMBiTxaQ9kYGzzhZRbK+xOo=")) w0 /\
  handleWebSocketHandshake short 7%nat w0 = w0.
Proof.
  intros data short w0.
  assert (Hno : forall s, includes s (lit ": ") = false -> ~ contains s (lit ": ")).
  { intros s Hf Hc. apply includes_true in Hc. congruence. }
  split.
  - replace (lit "s3pPLMBiTxaQ9kYGzzhZRbK+xOo=")
      with (generateAcceptValue (lit "dGhlIHNhbXBsZSBub25jZQ=="))
      by (vm_compute; reflexivity).
    apply (proj1 (handleWebSocketHandshake_key data 7%nat w0)).
    + vm_compute. reflexivity.
    + discriminate.
    + apply Hno. vm_compute. reflexivity.
  - apply (proj2 (handleWebSocketHandshake_key short 7%nat w0)
             (lit "Sec-WebSocket-Key:dGhlIHNhbXBsZSBub25jZQ==")).
    + vm_compute. reflexivity.
    + apply Hno. vm_compute. reflexivity.
Defined.

Lemma sha1_length (msg : list Z) : List.length (Crypto.sha1 msg) = 20%nat.
Proof.
  unfold Crypto.sha1.
  destruct (fold_left _ _ _) as [[[[h0 h1] h2] h3] h4].
  by rewrite !length_app, !length_be_bytes.
Qed.

(** X14. Whatever the key, the accept value has 28 characters and the last
    one is the padding character [=]; so it is never empty. *)
Theorem generateAcceptValue_shape (key : jsstring) :
  List.length (generateAcceptValue key) = 28%nat /\
  last (generateAcceptValue key) = Some Crypto.PAD.
Proof.
  unfold generateAcceptValue, Crypto.digest_base64.
  pose proof (sha1_length (from_binary (key ++ GUID))) as Hn.
  destruct (Crypto.sha1 _)
    as [|b0 [|b1 [|b2 [|b3 [|b4 [|b5 [|b6 [|b7 [|b8 [|b9 [|b10 [|b11 [|b12
        [|b13 [|b14 [|b15 [|b16 [|b17 [|b18 [|b19 [|? ?]]]]]]]]]]]]]]]]]]]]];
    try discriminate Hn.
  cbn [List.length Crypto.base64 app]. split; reflexivity.
Qed.

(** ** HTTP responses on the wire *)

Lemma join_lines (parts : list jsstring) (sep : jsstring) :
  parts <> [] ->
  join parts sep ++ sep = concat (map (fun part => part ++ sep) parts).
Proof.
  induction parts as [|p parts IH]; [done |]. intros _.
  destruct parts as [|q parts].
  - cbn. by rewrite app_nil_r.
  - change (join (p :: q :: parts) sep) with (p ++ sep ++ join (q :: parts) sep).
    rewrite map_cons, concat_cons, <- IH by done.
    by rewrite <- !app_assoc.
Qed.

(** X15. The layout of a response: the status line, every header as a line
    [<key>: <value>\r\n] in the order of the object, an empty line, the body;
    no [Content-Length] or other header is added.  With no header at all the
    header block is still one [\r\n], so two empty lines precede the body. *)
Theorem buildResponse_layout (status : Z) (headers : Headers) (body : jsstring) :
  (headers <> [] ->
   buildResponse status headers body =
     buildStatusLine status ++ concat (map headerLine headers) ++ CRLF ++ body) /\
  buildResponse status [] body = buildStatusLine status ++ CRLF ++ CRLF ++ body.
Proof.
  split; [|reflexivity].
  intros Hne. unfold buildResponse, buildHeaders. f_equal.
  rewrite join_lines by (by destruct headers).
  rewrite map_map. f_equal. f_equal.
  apply map_ext. intros [key value]. unfold headerLine. cbn [fst snd].
  by rewrite <- !app_assoc.
Qed.

Lemma buildResponse_layout_witness :
  buildResponse 200 baseHeaders (lit "Hello, world!") =
    lit "HTTP/1.1 200 OK" ++ CRLF ++
    lit "Content-Type: text/plain" ++ CRLF ++
    lit "Access-Control-Allow-Origin: *" ++ CRLF ++ CRLF ++
    lit "Hello, world!".
Proof.
  rewrite (proj1 (buildResponse_layout 200 baseHeaders (lit "Hello, world!")));
    [vm_compute; reflexivity | discriminate].
Defined.

(** X16. A status that the table of reason phrases does not list is sent
    with the phrase [Unknown Status].  426 is not listed, so the answer to
    [GET /websocket] begins with [HTTP/1.1 426 Unknown Status]. *)
Theorem buildStatusLine_unknown (data : Buffer) (socket : Socket) (w : World) :
  (forall status,
     httpStatusMessages status = None ->
     buildStatusLine status =
       lit "HTTP/1.1 " ++ Number_toString status ++ lit " Unknown Status" ++ CRLF) /\
  httpStatusMessages 426 = None /\
  (is_request data "GET" "/websocket" ->
   exists rest,
     calls (handleHttpRequest data socket w) =
       calls w ++
       [(socket, Write (from_utf8 (lit "HTTP/1.1 426 Unknown Status" ++ CRLF ++ rest)))]).
Proof.
  split; [|split; [reflexivity |]].
  - intros status Hs. unfold buildStatusLine. by rewrite Hs.
  - intros [Hm Hp]. unfold handleHttpRequest.
    destruct (decide _) as [[_ H]|_]; [rewrite Hp in H; discriminate H |].
    rewrite decide_True by (split; assumption).
    eexists. unfold buildResponse. cbn [calls socket_write_string socket_write].
    rewrite decide_False by (intros H; by apply H).
    cbn [calls socket_write_string socket_write].
    change (buildStatusLine 426) with (lit "HTTP/1.1 426 Unknown Status" ++ CRLF).
    rewrite <- app_assoc. reflexivity.
Qed.

Lemma buildStatusLine_unknown_witness :
  let data := from_utf8 (lit "GET /websocket HTTP/1.1" ++ CRLF ++ CRLF) in
  let w0 := {| calls := []; sseClients := [] |} in
  exists rest,
    calls (handleHttpRequest data 7%nat w0) =
      calls w0 ++
      [(7%nat, Write (from_utf8 (lit "HTTP/1.1 426 Unknown Status" ++ CRLF ++ rest)))].
Proof.
  intros data w0.
  apply (proj2 (proj2 (buildStatusLine_unknown data 7%nat w0))).
  split; vm_compute; reflexivity.
Defined.

(** ** Events on the wire *)

Lemma field_line_lines (name : jsstring) (value : option jsstring) :
  field_line name value = concat (map (fun l => l ++ NL) (line_of name value)).
Proof.
  unfold field_line, line_of.
  destruct value as [[|c v]|]; cbn [truthy nonempty map concat default from_option id];
    [reflexivity | | reflexivity].
  by rewrite app_nil_r, <- !app_assoc.
Qed.

Lemma formatSseMessage_sseLines (message : Sse.SseMessage) :
  formatSseMessage message =
    concat (map (fun l => l ++ NL) (sseLines message)) ++ NL.
Proof.
  unfold formatSseMessage, sseLines.
  rewrite !field_line_lines, !map_app, !concat_app, <- !app_assoc. reflexivity.
Qed.

Lemma first_lf_unique (l1 l2 r1 r2 : jsstring) :
  LF ∉ l1 -> LF ∉ l2 ->
  l1 ++ LF :: r1 = l2 ++ LF :: r2 -> l1 = l2 /\ r1 = r2.
Proof.
  revert l2. induction l1 as [|c l1 IH]; intros [|c' l2] H1 H2 Heq.
  - by injection Heq.
  - injection Heq as <- _. exfalso. apply H2. by left.
  - injection Heq as -> _. exfalso. apply H1. by left.
  - injection Heq as <- Heq. apply not_elem_of_cons in H1 as [_ H1].
    apply not_elem_of_cons in H2 as [_ H2].
    destruct (IH l2 H1 H2 Heq) as [-> ->]. done.
Qed.

Lemma lines_unique (ls1 ls2 : list jsstring) :
  Forall (fun l => l <> [] /\ LF ∉ l) ls1 ->
  Forall (fun l => l <> [] /\ LF ∉ l) ls2 ->
  concat (map (fun l => l ++ NL) ls1) ++ NL =
    concat (map (fun l => l ++ NL) ls2) ++ NL ->
  ls1 = ls2.
Proof.
  intros H1. revert ls2. induction H1 as [|l1 ls1 [Hne1 Hlf1] _ IH];
    intros ls2 H2 Heq; destruct H2 as [|l2 ls2 [Hne2 Hlf2] H2].
  - reflexivity.
  - exfalso. cbn [map concat] in Heq. rewrite <- !app_assoc in Heq.
    destruct l2 as [|c l2]; [done |]. injection Heq as <- _.
    apply Hlf2. by left.
  - exfalso. cbn [map concat] in Heq. rewrite <- !app_assoc in Heq.
    destruct l1 as [|c l1]; [done |]. injection Heq as -> _.
    apply Hlf1. by left.
  - cbn [map concat] in Heq. rewrite <- !app_assoc in Heq.
    apply first_lf_unique in Heq as [-> Heq]; [|done|done].
    f_equal. by apply IH.
Qed.

Lemma line_of_good (name : jsstring) (value : option jsstring) :
  LF ∉ name ++ lit ": " ->
  (forall v, value = Some v -> LF ∉ v) ->
  Forall (fun l => l <> [] /\ LF ∉ l) (line_of name value).
Proof.
  intros Hname Hv. unfold line_of.
  destruct value as [[|c v]|]; cbn [nonempty]; [constructor | | constructor].
  repeat constructor.
  - destruct name; discriminate.
  - rewrite app_assoc. intros [H|H]%elem_of_app; [by apply Hname |].
    by apply (Hv (c :: v)).
Qed.

Lemma sseLines_good (message : Sse.SseMessage) :
  lf_free message -> Forall (fun l => l <> [] /\ LF ∉ l) (sseLines message).
Proof.
  intros Hlf. unfold sseLines.
  assert (Hn : forall name, In name [lit "event"; lit "data"; lit "id"; lit "retry"] ->
                            LF ∉ name ++ lit ": ").
  { intros name Hin Hel. apply list_elem_of_In in Hel.
    cbn [In] in Hin. destruct Hin as [<-|[<-|[<-|[<-|[]]]]];
      vm_compute in Hel; intuition discriminate. }
  repeat apply Forall_app_2; apply line_of_good;
    try (apply Hn; cbn [In]; tauto); intros v Hv; apply Hlf; tauto.
Qed.

Lemma sseLines_fields (m1 m2 : Sse.SseMessage) :
  sseLines m1 = sseLines m2 -> nonempty_fields m1 = nonempty_fields m2.
Proof.
  destruct m1 as [e1 d1 i1 r1], m2 as [e2 d2 i2 r2].
  unfold sseLines, line_of, nonempty_fields.
  cbn [Sse.event Sse.data Sse.id Sse.retry].
  generalize (nonempty e1) (nonempty d1) (nonempty i1) (nonempty r1)
             (nonempty e2) (nonempty d2) (nonempty i2) (nonempty r2).
  intros [a1|] [b1|] [c1|] [f1|] [a2|] [b2|] [c2|] [f2|] H;
    vm_compute in H; simplify_eq; reflexivity.
Qed.

(** X17. An event can be read back from its text when no value holds a line
    feed: two such messages with the same formatted text have the same
    non-empty fields.  Values are written as they are, so a line feed inside
    a value breaks this: [{data: "a\nid: b"}] and [{data: "a", id: "b"}]
    give the same text. *)
Theorem formatSseMessage_injective (m1 m2 : Sse.SseMessage) :
  (lf_free m1 -> lf_free m2 ->
   formatSseMessage m1 = formatSseMessage m2 ->
   nonempty_fields m1 = nonempty_fields m2) /\
  formatSseMessage {| Sse.event := None; Sse.data := Some (lit "a" ++ NL ++ lit "id: b");
                      Sse.id := None; Sse.retry := None |} =
    formatSseMessage {| Sse.event := None; Sse.data := Some (lit "a");
                        Sse.id := Some (lit "b"); Sse.retry := None |}.
Proof.
  split; [|reflexivity].
  intros H1 H2 Heq. apply sseLines_fields.
  rewrite !formatSseMessage_sseLines in Heq.
  apply lines_unique; [by apply sseLines_good | by apply sseLines_good | exact Heq].
Qed.


Lemma formatSseMessage_injective_witness :
  nonempty_fields {| Sse.event := Some (lit "ping"); Sse.data := Some (lit "x");
                     Sse.id := None; Sse.retry := None |} =
  nonempty_fields {| Sse.event := Some (lit "ping"); Sse.data := Some (lit "x");
                     Sse.id := Some []; Sse.retry := None |}.
Proof.
  apply (proj1 (formatSseMessage_injective _ _)).
  - intros value [Hv|[Hv|[Hv|Hv]]] Hel%list_elem_of_In;
      cbn in Hv; try discriminate Hv; injection Hv as <-;
      vm_compute in Hel; intuition discriminate.
  - intros value [Hv|[Hv|[Hv|Hv]]] Hel%list_elem_of_In;
      cbn in Hv; try discriminate Hv; injection Hv as <-;
      vm_compute in Hel; intuition discriminate.
  - reflexivity.
Defined.

(** ** A subscriber and the timer *)

Lemma subscribe_world (data : Buffer) (socket : Socket) (w : World) :
  is_request data "GET" "/serverside-events" ->
  handleHttpRequest data socket w =
    sseClients_add socket (socket_write_string socket sseResponse w).
Proof.
  intros [Hm Hp]. unfold handleHttpRequest.
  destruct (decide _) as [[_ H]|_]; [rewrite Hp in H; discriminate H |].
  destruct (decide _) as [[_ H]|_]; [rewrite Hp in H; discriminate H |].
  rewrite decide_True by (split; assumption). reflexivity.
Qed.

Lemma deliveries_other (socket : Socket) (clients : list Socket) (text : jsstring) :
  socket ∉ clients ->
  filter (fun call => call.1 = socket) (deliveries clients text) = [].
Proof.
  induction clients as [|c clients IH]; [reflexivity |].
  intros [Hne Hout]%not_elem_of_cons. cbn [deliveries map].
  rewrite filter_cons_False by (cbn; congruence). by apply IH.
Qed.

Lemma deliveries_once (socket : Socket) (clients : list Socket) (text : jsstring) :
  NoDup clients -> socket ∈ clients ->
  filter (fun call => call.1 = socket) (deliveries clients text) =
    [(socket, Write (from_utf8 text))].
Proof.
  induction 1 as [|c clients Hc Hnd IH]; intros Hin.
  - by apply elem_of_nil in Hin.
  - cbn [deliveries map]. destruct (decide (c = socket)) as [->|Hne].
    + rewrite filter_cons_True by reflexivity.
      f_equal. by apply deliveries_other.
    + rewrite filter_cons_False by (cbn; congruence).
      apply IH. apply elem_of_cons in Hin as [->|Hin]; [done | exact Hin].
Qed.

(** X18. Subscription and timer together: on a socket that has asked for
    [GET /serverside-events], the next tick adds, after the stream response,
    exactly the four events, once each and in order, whether or not the
    socket had subscribed before. *)
Theorem subscriber_receives_tick
    (data : Buffer) (socket : Socket) (iso1 iso2 : jsstring) (now : Z) (w : World) :
  is_request data "GET" "/serverside-events" ->
  NoDup (sseClients w) ->
  callsOn socket (tick iso1 iso2 now (handleHttpRequest data socket w)) =
    callsOn socket w ++
    [Write (from_utf8 sseResponse);
     Write (from_utf8 (lit "event: ping" ++ NL ++
                       lit "data: Ping event at " ++ iso1 ++ NL ++ NL));
     Write (from_utf8 (lit "data: Server time: " ++ iso2 ++ NL ++ NL));
     Write (from_utf8 (lit "id: " ++ Number_toString now ++ NL ++ NL));
     Write (from_utf8 (lit "retry: 3000" ++ NL ++ NL))].
Proof.
  intros Hreq Hnd. rewrite tick_closed_form, (subscribe_world _ _ _ Hreq).
  set (w1 := sseClients_add socket (socket_write_string socket sseResponse w)).
  assert (Hin : socket ∈ sseClients w1).
  { unfold w1, sseClients_add. cbn [sseClients socket_write_string socket_write].
    destruct (decide _) as [|_]; [done |].
    apply elem_of_app. right. by apply list_elem_of_singleton. }
  assert (Hnd1 : NoDup (sseClients w1)).
  { unfold w1, sseClients_add. cbn [sseClients socket_write_string socket_write].
    destruct (decide _) as [|Hout]; [done |].
    apply NoDup_app. repeat split; [done | | apply NoDup_singleton].
    intros x Hx ->%list_elem_of_singleton. contradiction. }
  unfold callsOn. cbn [calls].
  rewrite !filter_app, !deliveries_once by assumption.
  unfold w1, sseClients_add, socket_write_string, socket_write. cbn [calls].
  rewrite filter_app, !map_app.
  rewrite filter_cons_True by reflexivity.
  rewrite filter_nil, <- !app_assoc. reflexivity.
Qed.

Lemma subscriber_receives_tick_witness :
  let data := from_utf8 (lit "GET /serverside-events HTTP/1.1" ++ CRLF ++ CRLF) in
  let w0 := {| calls := [(3%nat, Write [0x0a])]; sseClients := [3%nat] |} in
  List.length (callsOn 7%nat (tick (lit "2024-01-01T00:00:00.000Z")
                                 (lit "2024-01-01T00:00:00.000Z") 1704067200000
                                 (handleHttpRequest data 7%nat w0))) = 5%nat.
Proof.
  intros data w0.
  rewrite (subscriber_receives_tick data 7%nat _ _ _ w0).
  - reflexivity.
  - split; vm_compute; reflexivity.
  - apply NoDup_singleton.
Defined.


Lemma on_close_unsubscribes_witness :
  let w0 := {| calls := []; sseClients := [3%nat; 7%nat] |} in
  7%nat ∈ sseClients (on_close 3%nat w0).
Proof.
  intros w0.
  destruct (on_close_unsubscribes 3%nat
              {| Sse.event := None; Sse.data := Some (lit "x");
                 Sse.id := None; Sse.retry := None |} w0) as (_ & _ & Hiff & _).
  apply (Hiff 7%nat); [discriminate |].
  apply list_elem_of_In. cbn. tauto.
Defined.

(** ** Edges of the dispatch *)

(** X19. A request line with no space in it has no path, and no route
    matches an undefined path: such a request, the empty buffer among them,
    is answered 404 and the socket is ended. *)
Theorem handleHttpRequest_no_path (data : Buffer) (socket : Socket) (w : World) :
  (request_path data = None ->
   handleHttpRequest data socket w =
     socket_end socket
       (socket_write_string socket
          (buildResponse 404 baseHeaders (lit "Not Found")) w)) /\
  (~ contains (requestLine data) (lit " ") -> request_path data = None) /\
  request_path [] = None.
Proof.
  split; [|split; [|reflexivity]].
  - intros Hp. unfold handleHttpRequest. rewrite Hp.
    destruct (decide _) as [[_ H]|_]; [discriminate H |].
    destruct (decide _) as [[_ H]|_]; [discriminate H |].
    destruct (decide _) as [[_ H]|_]; [discriminate H |].
    reflexivity.
  - intros Hc. unfold request_path. by rewrite split_no_sep.
Qed.

Lemma handleHttpRequest_no_path_witness :
  let w0 := {| calls := []; sseClients := [] |} in
  on_data [] 7%nat w0 =
    Normal (socket_end 7%nat
              (socket_write_string 7%nat
                 (buildResponse 404 baseHeaders (lit "Not Found")) w0)).
Proof.
  intros w0. change (on_data [] 7%nat w0) with (Normal (handleHttpRequest [] 7%nat w0)).
  rewrite (proj1 (handleHttpRequest_no_path [] 7%nat w0) eq_refl). reflexivity.
Defined.

(** X20. The decoder looks at one frame per buffer: whatever follows a
    masked frame in the same buffer, a second frame for instance, changes
    nothing to what the server does. *)
Theorem handleWebSocketFrames_first_frame_only
    (byte0 : Z) (key payload more : Buffer) (socket : Socket) (w : World) :
  is_buffer payload ->
  List.length key = 4%nat ->
  Buffer.length payload <= MAX_LENGTH - 14 ->
  handleWebSocketFrames (clientFrame byte0 key payload ++ more) socket w =
    handleWebSocketFrames (clientFrame byte0 key payload) socket w.
Proof.
  intros Hb Hkey HL. unfold handleWebSocketFrames.
  by rewrite clientFrame_decoded_post, clientFrame_decoded.
Qed.

Lemma handleWebSocketFrames_first_frame_only_witness :
  let w0 := {| calls := []; sseClients := [] |} in
  let first := clientFrame 0x81 [0x37; 0xfa; 0x21; 0x3d] (from_utf8 (lit "Hello")) in
  let second := clientFrame 0x88 [0x01; 0x02; 0x03; 0x04] [] in
  handleWebSocketFrames (first ++ second) 7%nat w0 =
    handleWebSocketFrames first 7%nat w0.
Proof.
  intros w0 first second.
  apply (handleWebSocketFrames_first_frame_only 0x81 [0x37; 0xfa; 0x21; 0x3d]
           (from_utf8 (lit "Hello")) second 7%nat w0).
  - unfold is_buffer, is_byte. vm_compute. repeat constructor; discriminate.
  - reflexivity.
  - vm_compute. discriminate.
Defined.
